(** * ncstool: drum pattern extraction from Novation Circuit session files

    A shallow embedding of [cli.py]: the address arithmetic ([_idx],
    [field_offset]), the bounds-checked byte read ([_read_u8]), the
    extraction loops ([extract_drum_patterns]), the offset detection
    heuristic ([_detect_drum_offsets] with its nested [is_mask_candidate]),
    the glyph renderer ([_step_symbol], [_render_ascii]) and the way the
    command [drums_extract] resolves the offsets before it extracts.

    Python integers are unbounded and are modelled by [Z]; a [bytes] object
    is a [list byte]; a [dict] with string keys is a [gmap string _];
    [Optional[int]] is [option Z]; a raised exception is the left injection
    of a sum. *)

From Stdlib Require Import ZArith List String Ascii Lia.
From Stdlib.Strings Require Import Byte.
From Corelib Require Import SpecFloat.
From Stdlib Require HexadecimalN.
From stdpp Require Import base list gmap strings pretty.

Local Open Scope Z_scope.

(** ** Python built-ins used by the program *)

Module Py.

(** [len(x)] *)
Definition len {A} (l : list A) : Z := Z.of_nat (length l).

(** The integer value of one element of a [bytes] object. *)
Definition u8 (b : byte) : Z := Z.of_N (Byte.to_N b).

(** [range(stop)] and [range(start, stop)]. *)
Definition range (stop : Z) : list Z := seqZ 0 stop.
Definition range2 (start stop : Z) : list Z := seqZ start (stop - start).

(** [range(start, stop, step)] for a positive [step]: the values
    [start + k*step] that are below [stop]. *)
Definition range3 (start stop step : Z) : list Z :=
  (fun k => start + k * step) <$> seqZ 0 ((stop - start + step - 1) / step).

(** One bound of a slice: a negative bound counts from the end, and the
    outcome is clipped to [0 .. len]. *)
Definition slice_bound (n i : Z) : Z :=
  if i <? 0 then Z.max (i + n) 0 else Z.min i n.

(** [data[lo:hi]] *)
Definition slice {A} (data : list A) (lo hi : Z) : list A :=
  let lo' := slice_bound (len data) lo in
  let hi' := slice_bound (len data) hi in
  take (Z.to_nat (hi' - lo')) (drop (Z.to_nat lo') data).

(** [seg.count(x)] on bytes. *)
Fixpoint count (seg : list byte) (x : Z) : Z :=
  match seg with
  | [] => 0
  | b :: rest => (if u8 b =? x then 1 else 0) + count rest x
  end.

(** [max(seg)] of a non-empty bytes object whose first element is [b]. *)
Definition max_from (b : byte) (rest : list byte) : Z :=
  fold_left Z.max (u8 <$> rest) (u8 b).

(** *** Floating point

    A Python [float] is an IEEE 754 binary64 number; the kernel's
    specification of binary64 arithmetic is used for it.  [float_of_int]
    is the conversion of an integer, and [truediv a b] is [a / b] on
    integers: CPython rounds the exact quotient to the nearest double
    (ties to even), which is the division of the two converted operands
    whenever both are below [2^53] in magnitude. *)
Definition prec : Z := 53.
Definition emax : Z := 1024.

Definition float_of_int (n : Z) : spec_float :=
  binary_normalize prec emax n 0 false.

Definition truediv (a b : Z) : spec_float :=
  SFdiv prec emax (float_of_int a) (float_of_int b).

Definition float_lt (x y : spec_float) : bool := SFltb x y.

(** The literal [0.6]: the double nearest to 6/10, which is
    [5404319552844595 * 2^-53]. *)
Definition float_0_6 : spec_float := S754_finite false 5404319552844595 (-53).

(** *** Formatting *)

Fixpoint hex_of_uint (u : Hexadecimal.uint) : string :=
  match u with
  | Hexadecimal.Nil => EmptyString
  | Hexadecimal.D0 u => String "0" (hex_of_uint u)
  | Hexadecimal.D1 u => String "1" (hex_of_uint u)
  | Hexadecimal.D2 u => String "2" (hex_of_uint u)
  | Hexadecimal.D3 u => String "3" (hex_of_uint u)
  | Hexadecimal.D4 u => String "4" (hex_of_uint u)
  | Hexadecimal.D5 u => String "5" (hex_of_uint u)
  | Hexadecimal.D6 u => String "6" (hex_of_uint u)
  | Hexadecimal.D7 u => String "7" (hex_of_uint u)
  | Hexadecimal.D8 u => String "8" (hex_of_uint u)
  | Hexadecimal.D9 u => String "9" (hex_of_uint u)
  | Hexadecimal.Da u => String "A" (hex_of_uint u)
  | Hexadecimal.Db u => String "B" (hex_of_uint u)
  | Hexadecimal.Dc u => String "C" (hex_of_uint u)
  | Hexadecimal.Dd u => String "D" (hex_of_uint u)
  | Hexadecimal.De u => String "E" (hex_of_uint u)
  | Hexadecimal.Df u => String "F" (hex_of_uint u)
  end.

(** [f"{n:X}"]: upper-case hexadecimal, with a minus sign in front of the
    digits of a negative number. *)
Definition format_X (n : Z) : string :=
  match n with
  | Zneg p => String "-" (hex_of_uint (N.to_hex_uint (Npos p)))
  | _ => hex_of_uint (N.to_hex_uint (Z.to_N n))
  end.

(** [f"{n}"]: decimal. *)
Definition format_d (n : Z) : string := pretty n.

End Py.

(** ** Exceptions

    The two exceptions the program raises, with their messages. *)

Inductive exn : Type :=
  | IndexError (msg : string)
  | UsageError (msg : string).

(** A computation that returns an [A] or raises. *)
Definition Exc (A : Type) : Type := (exn + A)%type.

#[global] Instance Exc_ret : MRet Exc := fun A x => inr x.
#[global] Instance Exc_bind : MBind Exc := fun A B f m =>
  match m with
  | inl e => inl e
  | inr x => f x
  end.

Definition raise {A} (e : exn) : Exc A := inl e.

(** ** Constants of the default drum layout *)

Definition DEFAULT_TRACKS : Z := 4.
Definition DEFAULT_PATTERNS : Z := 8.
Definition DEFAULT_STEPS : Z := 32.
Definition DEFAULT_TRACK_STRIDE : Z := 0x3540.
Definition DEFAULT_PATTERN_STRIDE : Z := 0x06A8.
Definition DEFAULT_VEL_OFF : Z := 0x0CD74.
Definition DEFAULT_PROB_OFF : Z := 0x0CD94.
Definition DEFAULT_CHOICE_OFF : Z := 0x0CDB4.
Definition DEFAULT_MASK_OFF : Z := 0x0CDD4.

Definition _DEFAULT_OFF_DIFFS : gmap string Z :=
  <["choice" := DEFAULT_CHOICE_OFF - DEFAULT_MASK_OFF]>
  (<["prob" := DEFAULT_PROB_OFF - DEFAULT_MASK_OFF]>
  (<["vel" := DEFAULT_VEL_OFF - DEFAULT_MASK_OFF]> ∅)).

(** ** Byte reads and address arithmetic *)

Definition read_past_end (off : Z) : string :=
  "read past end of buffer at 0x" +:+ Py.format_X off.

Definition _read_u8 (buf : list byte) (off : Z) : Exc Z :=
  if (off <? 0) || (off >=? Py.len buf) then
    raise (IndexError (read_past_end off))
  else
    match buf !! Z.to_nat off with
    | Some b => mret (Py.u8 b)
    | None => raise (IndexError "index out of range")
    end.

Definition _idx (track pattern step track_stride pattern_stride : Z) : Z :=
  track * track_stride + pattern * pattern_stride + step.

Definition _clamp (x lo hi : Z) : Z := Z.max lo (Z.min hi x).

(** The nested [field_offset] of [extract_drum_patterns]; [base] is the
    variable it captures. *)
Definition field_offset (base : Z) (field_base : option Z) (index : Z) : option Z :=
  match field_base with
  | None => None
  | Some fb => Some (base + fb + index)
  end.

(** The address of one field of one step: [field_offset] applied to the
    index that [_idx] computes. *)
Definition address (base field_base track pattern step track_stride pattern_stride : Z) : Z :=
  base + field_base + _idx track pattern step track_stride pattern_stride.

(** ** Extraction *)

(** The dictionaries of the result.  A step is a [dict] from field names to
    byte values; a pattern entry is [{"pattern": p, "steps": [...]}], a track
    entry is [{"track": t, "patterns": [...]}]. *)
Record PatternEntry : Type := {
  pe_pattern : Z;
  pe_steps : list (gmap string Z)
}.

Record TrackEntry : Type := {
  te_track : Z;
  te_patterns : list PatternEntry
}.

Record Meta : Type := {
  meta_base : Z;
  meta_track_stride : Z;
  meta_pattern_stride : Z;
  meta_tracks : Z;
  meta_patterns : Z;
  meta_steps : Z;
  meta_offsets : gmap string (option Z)
}.

Record ExtractionResult : Type := {
  res_meta : Meta;
  res_tracks : list TrackEntry
}.

Section Extraction.
Variable data : list byte.
Variable base : Z.
Variables vel_off prob_off choice_off mask_off : option Z.
Variables track_stride pattern_stride tracks patterns steps : Z.
Variables track pattern : option Z.

(** One optional field of a step: read and stored only when its base is
    configured. *)
Definition read_field (name : string) (field_base : option Z) (offset_idx : Z)
    (step_data : gmap string Z) : Exc (gmap string Z) :=
  match field_offset base field_base offset_idx with
  | Some off => v ← _read_u8 data off; mret (<[name := v]> step_data)
  | None => mret step_data
  end.

(** The body of the innermost loop. *)
Definition extract_step (t p s : Z) : Exc (gmap string Z) :=
  let offset_idx := _idx t p s track_stride pattern_stride in
  let step_data : gmap string Z := ∅ in
  v ← match field_offset base vel_off offset_idx with
      | Some v_off => _read_u8 data v_off
      | None => mret 0
      end;
  let step_data := <["velocity" := v]> step_data in
  step_data ← read_field "probability" prob_off offset_idx step_data;
  step_data ← read_field "choice" choice_off offset_idx step_data;
  step_data ← read_field "mask" mask_off offset_idx step_data;
  mret step_data.

Definition track_range : list Z :=
  match track with
  | None => Py.range tracks
  | Some t => Py.range2 t (t + 1)
  end.

Definition pattern_range : list Z :=
  match pattern with
  | None => Py.range patterns
  | Some p => Py.range2 p (p + 1)
  end.

Definition extract_pattern (t p : Z) : Exc PatternEntry :=
  steps_list ← mapM (extract_step t p) (Py.range steps);
  mret {| pe_pattern := p; pe_steps := steps_list |}.

Definition extract_track (t : Z) : Exc TrackEntry :=
  entries ← mapM (extract_pattern t) pattern_range;
  mret {| te_track := t; te_patterns := entries |}.

Definition extract_meta : Meta :=
  {| meta_base := base;
     meta_track_stride := track_stride;
     meta_pattern_stride := pattern_stride;
     meta_tracks := tracks;
     meta_patterns := patterns;
     meta_steps := steps;
     meta_offsets :=
       <["mask" := mask_off]> (<["choice" := choice_off]>
       (<["probability" := prob_off]> (<["velocity" := vel_off]> ∅))) |}.

Definition extract_drum_patterns : Exc ExtractionResult :=
  match vel_off with
  | None => raise (UsageError "Velocity offset must be provided.")
  | Some _ =>
      entries ← mapM extract_track track_range;
      mret {| res_meta := extract_meta; res_tracks := entries |}
  end.

End Extraction.

(** ** Offset detection *)

(** The nested [is_mask_candidate]: the segment is not empty, at least 60%
    of it is zero, and no byte is above [0x1F].  [ratio] is a float, and
    the comparison with [0.6] is the comparison of floats. *)
Definition is_mask_candidate (seg : list byte) : bool :=
  match seg with
  | [] => false
  | b :: rest =>
      let zero_count := Py.count seg 0 in
      let ratio := Py.truediv zero_count (Py.len seg) in
      if Py.float_lt ratio Py.float_0_6 then false
      else if Py.max_from b rest >? 0x1F then false
      else true
  end.

(** The hint check: the hint is appended to [candidates] when it is given,
    in bounds, and its segment is a candidate. *)
Definition check_hint (data : list byte) (length : Z) (mask_off_hint : option Z)
    (candidates : list Z) : list Z :=
  match mask_off_hint with
  | Some hint =>
      if (hint >=? 0) && (hint + length <=? Py.len data) then
        if is_mask_candidate (Py.slice data hint (hint + length))
        then candidates ++ [hint]
        else candidates
      else candidates
  | None => candidates
  end.

(** The scanning loop over the offsets [offs]: the first offset whose
    segment is a candidate is appended, and the loop is left. *)
Fixpoint scan_offsets (data : list byte) (length : Z) (offs : list Z)
    (candidates : list Z) : list Z :=
  match offs with
  | [] => candidates
  | off :: rest =>
      if is_mask_candidate (Py.slice data off (off + length))
      then candidates ++ [off]
      else scan_offsets data length rest candidates
  end.

(** The value of [candidates] after the hint check and the scan. *)
Definition mask_candidates (data : list byte) (length : Z) (mask_off_hint : option Z) : list Z :=
  let candidates := check_hint data length mask_off_hint [] in
  match candidates with
  | [] => scan_offsets data length (Py.range3 0 (Py.len data - length) 16) candidates
  | _ :: _ => candidates
  end.

(** The bounds check on one derived offset. *)
Definition segment_in_file (data : list byte) (length off : Z) : bool :=
  negb ((off <? 0) || (off + length >? Py.len data)).

(** Debug output is not modelled: [debug] only prints. *)
Definition _detect_drum_offsets (data : list byte) (tracks patterns steps : Z)
    (mask_off_hint : option Z) : option (gmap string Z) :=
  let length := tracks * patterns * steps in
  match mask_candidates data length mask_off_hint with
  | [] => None
  | mask_off :: _ =>
      let vel_off := mask_off + _DEFAULT_OFF_DIFFS !!! "vel" in
      let prob_off := mask_off + _DEFAULT_OFF_DIFFS !!! "prob" in
      let choice_off := mask_off + _DEFAULT_OFF_DIFFS !!! "choice" in
      if forallb (segment_in_file data length) [vel_off; prob_off; choice_off; mask_off]
      then Some (<["mask" := mask_off]> (<["choice" := choice_off]>
                 (<["probability" := prob_off]> (<["velocity" := vel_off]> ∅))))
      else None
  end.

(** ** Rendering *)

Definition levels : list string := ["▁"; "▃"; "▅"; "█"].

(** The index into [levels] that [_step_symbol] computes. *)
Definition level_index (velocity : Z) : Z :=
  _clamp ((velocity * Py.len levels) / 128) 0 (Py.len levels - 1).

Definition _step_symbol (velocity : Z) (probability : option Z) : string :=
  if velocity =? 0 then "."
  else
    let idx := level_index velocity in
    let sym := default "" (levels !! Z.to_nat idx) in
    match probability with
    | Some pr => sym +:+ Py.format_d pr
    | None => sym
    end.

Definition _render_ascii (pattern_steps : list (gmap string Z)) (show_prob : bool) : string :=
  String.concat " "
    ((fun step : gmap string Z =>
        _step_symbol (default 0 (step !! "velocity"))
                     (if show_prob then step !! "probability" else None))
     <$> pattern_steps).

(** ** Vocabulary of the properties *)

(** The byte values a segment or buffer holds at an address, when the
    address is inside it. *)
Definition byte_at (data : list byte) (a : Z) : option Z :=
  if a <? 0 then None else Py.u8 <$> data !! Z.to_nat a.

Definition in_bounds (data : list byte) (a : Z) : bool :=
  (0 <=? a) && (a <? Py.len data).

(** The configured fields, by name, in the order the loop body reads them. *)
Definition configured (vel_off prob_off choice_off mask_off : option Z) : list (string * Z) :=
  omap (fun nf : string * option Z => pair nf.1 <$> nf.2)
    [("velocity", vel_off); ("probability", prob_off);
     ("choice", choice_off); ("mask", mask_off)].

(** What identifies one read of the extraction: where it reads, in a buffer
    of which length, for which field of which step. *)
Record ReadCtx : Type := {
  rc_offset : Z;
  rc_buffer_length : Z;
  rc_field : string;
  rc_track : Z;
  rc_pattern : Z;
  rc_step : Z
}.

(** The first element of [l], in order, on which [g] answers. *)
Fixpoint first_some {A C} (g : A -> option C) (l : list A) : option C :=
  match l with
  | [] => None
  | x :: rest =>
      match g x with
      | Some c => Some c
      | None => first_some g rest
      end
  end.

Section Reads.
Variable data : list byte.
Variable base : Z.
Variables vel_off prob_off choice_off mask_off : option Z.
Variables track_stride pattern_stride tracks patterns steps : Z.
Variables track pattern : option Z.

Definition oob_read (t p s : Z) (nf : string * Z) : option ReadCtx :=
  let a := address base nf.2 t p s track_stride pattern_stride in
  if in_bounds data a then None
  else Some {| rc_offset := a; rc_buffer_length := Py.len data;
               rc_field := nf.1; rc_track := t; rc_pattern := p; rc_step := s |}.

(** The first read, in the order of the loops, whose address is outside
    the buffer. *)
Definition failing_read : option ReadCtx :=
  first_some (fun t =>
    first_some (fun p =>
      first_some (fun s =>
        first_some (oob_read t p s)
          (configured vel_off prob_off choice_off mask_off))
        (Py.range steps))
      (pattern_range patterns pattern))
    (track_range tracks track).
End Reads.

(** The error that the failing read [c] raises. *)
Definition raised_by (c : ReadCtx) (e : exn) : Prop :=
  e = IndexError (read_past_end (rc_offset c)).

(** What a step holds for a field: nothing when the field is not
    configured, and otherwise the byte of the buffer at the address of the
    field. *)
Definition expected (data : list byte) (base track_stride pattern_stride : Z)
    (field_base : option Z) (t p s : Z) : option Z :=
  fb ← field_base; byte_at data (address base fb t p s track_stride pattern_stride).

(** An error is said to carry the context of the failing read when the
    context can be recovered from the error: [decode] does so when, on every
    failing call, it maps the error to the read that failed. *)
Definition carries_context (decode : exn -> ReadCtx) : Prop :=
  forall data base vel_off prob_off choice_off mask_off
         track_stride pattern_stride tracks patterns steps track pattern e c,
    extract_drum_patterns data base vel_off prob_off choice_off mask_off
      track_stride pattern_stride tracks patterns steps track pattern = inl e ->
    failing_read data base vel_off prob_off choice_off mask_off
      track_stride pattern_stride tracks patterns steps track pattern = Some c ->
    decode e = c.

(** The step at coordinates [(t, p, s)] of a result: the entry of track [t],
    in it the entry of pattern [p], in it the element number [s]. *)
Definition step_at (res : ExtractionResult) (t p s : Z) : option (gmap string Z) :=
  te ← List.find (fun te => te_track te =? t) (res_tracks res);
  pe ← List.find (fun pe => pe_pattern pe =? p) (te_patterns te);
  if s <? 0 then None else pe_steps pe !! Z.to_nat s.

(** The place of a glyph on the intensity scale: silence, then the four
    bars of [levels]. *)
Definition glyph_rank (g : string) : option nat :=
  fst <$> list_find (fun x => x = g) ("." :: levels).

(** ** The command: resolving the offsets

    The part of [drums_extract] between the parsing of the options and the
    output: when [--auto-detect] is on and detection returns a non-empty
    dictionary, the four offsets are taken from it ([dict.get], so a
    missing key would give [None]); otherwise the offsets given on the
    command line stay.  The hint passed to the detector is the mask offset
    of the command line.  Reading the file, parsing the options, writing
    JSON and printing are not modelled. *)
Definition resolve_offsets (data : list byte) (tracks patterns steps : Z)
    (vel_off prob_off choice_off mask_off : option Z) (auto_detect : bool)
    : option Z * option Z * option Z * option Z :=
  if auto_detect then
    match _detect_drum_offsets data tracks patterns steps mask_off with
    | Some detected_offsets =>
        if bool_decide (detected_offsets = ∅)
        then (vel_off, prob_off, choice_off, mask_off)
        else (detected_offsets !! "velocity", detected_offsets !! "probability",
              detected_offsets !! "choice", detected_offsets !! "mask")
    | None => (vel_off, prob_off, choice_off, mask_off)
    end
  else (vel_off, prob_off, choice_off, mask_off).

(** The [result] that [drums_extract] computes from the parsed options. *)
Definition drums_extract_result (data : list byte) (base : Z)
    (vel_off prob_off choice_off mask_off : option Z)
    (ts ps tracks patterns steps : Z) (track_idx pattern_idx : option Z)
    (auto_detect : bool) : Exc ExtractionResult :=
  let '(v, p, c, m) :=
    resolve_offsets data tracks patterns steps vel_off prob_off choice_off mask_off
      auto_detect in
  extract_drum_patterns data base v p c m ts ps tracks patterns steps
    track_idx pattern_idx.

(** ** Binary64 constants

    Powers of two around the 53-bit mantissa, the mantissa of [0.6], and
    the odd numerator of the midpoint between [0.6] and the double just
    below it, [(2*C06 - 1) / 2^54]. *)
Definition P52 : Z := 4503599627370496.
Definition P53 : Z := 9007199254740992.
Definition P54 : Z := 18014398509481984.
Definition C06 : Z := 5404319552844595.
Definition K06 : Z := 10808639105689189.

(** The bar of [levels] for a velocity other than 0, by band. *)
Definition band_glyph (velocity : Z) : string :=
  if velocity <? 32 then "▁"
  else if velocity <? 64 then "▃"
  else if velocity <? 96 then "▅"
  else "█".

(** ** Properties of the built-ins *)

Lemma elem_of_range (n k : Z) : k ∈ Py.range n <-> 0 <= k < n.
Proof. unfold Py.range. rewrite elem_of_seqZ. lia. Qed.

Lemma elem_of_range2_succ (t k : Z) : k ∈ Py.range2 t (t + 1) <-> k = t.
Proof. unfold Py.range2. rewrite elem_of_seqZ. lia. Qed.

Lemma lookup_range (n : Z) (i : nat) (k : Z) :
  Py.range n !! i = Some k <-> k = Z.of_nat i /\ Z.of_nat i < n.
Proof. unfold Py.range. rewrite lookup_seqZ. lia. Qed.

(** ** The exception monad *)

Section MapM.
Context {A B : Type}.
Implicit Types (f : A -> Exc B) (l : list A).

Lemma mapM_nil f : mapM f [] = inr [].
Proof. reflexivity. Qed.

Lemma mapM_cons f x l :
  mapM f (x :: l) =
  match f x with
  | inl e => inl e
  | inr y => match mapM f l with
             | inl e => inl e
             | inr ys => inr (y :: ys)
             end
  end.
Proof. cbn. destruct (f x); [reflexivity|]. cbn. destruct (mapM f l); reflexivity. Qed.

(** A successful [mapM] maps the elements one by one, in order. *)
Lemma mapM_inr_Forall2 f l ys :
  mapM f l = inr ys <-> Forall2 (fun x y => f x = inr y) l ys.
Proof.
  revert ys. induction l as [|x l IH]; intros ys.
  - rewrite mapM_nil. split.
    + intros [= <-]. constructor.
    + intros H. inversion H. reflexivity.
  - rewrite mapM_cons. split.
    + destruct (f x) as [e|y] eqn:Hx; [discriminate|].
      destruct (mapM f l) as [e|zs] eqn:Hl; [discriminate|].
      intros [= <-]. constructor; [assumption|]. apply IH. reflexivity.
    + intros H. inversion H as [|? y ? zs Hx Hrest]; subst.
      rewrite Hx. apply IH in Hrest. rewrite Hrest. reflexivity.
Qed.

Lemma mapM_inr_elem f l ys y :
  mapM f l = inr ys -> y ∈ ys -> exists x, x ∈ l /\ f x = inr y.
Proof.
  rewrite mapM_inr_Forall2. intros H Hy.
  apply list_elem_of_lookup in Hy as [i Hi].
  destruct (Forall2_lookup_r _ _ _ _ _ H Hi) as (x & Hx & Hf).
  exists x. split; [|assumption]. apply list_elem_of_lookup. eauto.
Qed.

Lemma mapM_inr_lookup f l ys i x :
  mapM f l = inr ys -> l !! i = Some x -> exists y, ys !! i = Some y /\ f x = inr y.
Proof.
  rewrite mapM_inr_Forall2. intros H Hx.
  destruct (Forall2_lookup_l _ _ _ _ _ H Hx) as (y & Hy & Hf). eauto.
Qed.

(** The outcome of [mapM] against a search for the first failure: when
    [g] finds a failure exactly where [f] raises, and the two are related
    by [P], [mapM f] raises at the first failure, with that relation. *)
Lemma mapM_first_some {C} f (g : A -> option C) (P : C -> exn -> Prop) l :
  (forall x, x ∈ l ->
     match f x with
     | inl e => exists c, g x = Some c /\ P c e
     | inr _ => g x = None
     end) ->
  match mapM f l with
  | inl e => exists c, first_some g l = Some c /\ P c e
  | inr _ => first_some g l = None
  end.
Proof.
  induction l as [|x l IH]; intros H; [reflexivity|].
  rewrite mapM_cons. cbn [first_some].
  pose proof (H x ltac:(left)) as Hx.
  destruct (f x) as [e|y].
  - destruct Hx as (c & -> & HP). eauto.
  - rewrite Hx.
    assert (Hl : forall x', x' ∈ l ->
              match f x' with
              | inl e => exists c, g x' = Some c /\ P c e
              | inr _ => g x' = None
              end) by (intros x' Hx'; apply H; right; exact Hx').
    specialize (IH Hl). destruct (mapM f l); assumption.
Qed.
End MapM.

Lemma first_some_None {A C} (g : A -> option C) (l : list A) :
  first_some g l = None <-> forall x, x ∈ l -> g x = None.
Proof.
  induction l as [|x l IH]; cbn.
  - split; [|reflexivity]. intros _ x Hx. inversion Hx.
  - destruct (g x) eqn:Hg.
    + split; [discriminate|]. intros H. rewrite (H x) in Hg by left. discriminate.
    + rewrite IH. split.
      * intros H y Hy. apply elem_of_cons in Hy as [->|Hy]; auto.
      * intros H y Hy. apply H. right. exact Hy.
Qed.

Lemma first_some_Some {A C} (g : A -> option C) (l : list A) (c : C) :
  first_some g l = Some c -> exists x, x ∈ l /\ g x = Some c.
Proof.
  induction l as [|x l IH]; cbn; [discriminate|].
  destruct (g x) eqn:Hg.
  - intros [= ->]. exists x. split; [left|assumption].
  - intros H. destruct (IH H) as (y & Hy & Hgy). exists y. split; [right|]; assumption.
Qed.

(** ** Byte reads *)

Lemma read_u8_in_bounds (data : list byte) (a : Z) :
  in_bounds data a = true ->
  exists v, byte_at data a = Some v /\ _read_u8 data a = inr v.
Proof.
  unfold in_bounds, _read_u8, byte_at, Py.len. intros H.
  apply andb_true_iff in H as [H0 H1].
  apply Z.leb_le in H0. apply Z.ltb_lt in H1.
  destruct (a <? 0) eqn:Hneg; [apply Z.ltb_lt in Hneg; lia|].
  destruct (a >=? Z.of_nat (length data)) eqn:Hge; [apply Z.geb_le in Hge; lia|].
  cbn [orb].
  destruct (lookup_lt_is_Some_2 data (Z.to_nat a) ltac:(lia)) as [b Hb].
  rewrite Hb. exists (Py.u8 b). split; reflexivity.
Qed.

Lemma read_u8_out_of_bounds (data : list byte) (a : Z) :
  in_bounds data a = false ->
  _read_u8 data a = inl (IndexError (read_past_end a)).
Proof.
  unfold in_bounds, _read_u8, Py.len. intros H.
  apply andb_false_iff in H as [H|H].
  - apply Z.leb_gt in H. destruct (a <? 0) eqn:Hneg; [reflexivity|].
    apply Z.ltb_ge in Hneg. lia.
  - apply Z.ltb_ge in H. destruct (a >=? Z.of_nat (length data)) eqn:Hge.
    + rewrite orb_true_r. reflexivity.
    + rewrite Z.geb_leb in Hge. apply Z.leb_gt in Hge. lia.
Qed.

(** The two outcomes of a read, decided by the bounds of its address. *)
Lemma read_u8_cases (data : list byte) (a : Z) :
  (in_bounds data a = true /\
   exists v, byte_at data a = Some v /\ _read_u8 data a = inr v) \/
  (in_bounds data a = false /\
   _read_u8 data a = inl (IndexError (read_past_end a))).
Proof.
  destruct (in_bounds data a) eqn:H.
  - left. split; [reflexivity|]. apply read_u8_in_bounds. exact H.
  - right. split; [reflexivity|]. apply read_u8_out_of_bounds. exact H.
Qed.

(** ** One step of the extraction *)

Section StepFacts.
Variable data : list byte.
Variable base : Z.
Variables vel_off prob_off choice_off mask_off : option Z.
Variables track_stride pattern_stride : Z.

Let step := extract_step data base vel_off prob_off choice_off mask_off
              track_stride pattern_stride.
Let oob := oob_read data base track_stride pattern_stride.
Let fields := configured vel_off prob_off choice_off mask_off.
Let expect := expected data base track_stride pattern_stride.

Lemma extract_step_outcome t p s :
  match step t p s with
  | inl e => exists c, first_some (oob t p s) fields = Some c /\ raised_by c e
  | inr sd =>
      first_some (oob t p s) fields = None /\
      sd !! "velocity" = match vel_off with
                         | Some _ => expect vel_off t p s
                         | None => Some 0
                         end /\
      sd !! "probability" = expect prob_off t p s /\
      sd !! "choice" = expect choice_off t p s /\
      sd !! "mask" = expect mask_off t p s
  end.
Proof.
  subst step oob fields expect.
  unfold extract_step, read_field, expected, configured, oob_read, raised_by,
    field_offset, address.
  set (i := _idx t p s track_stride pattern_stride).
  destruct vel_off as [v|], prob_off as [pr|], choice_off as [ch|], mask_off as [mk|];
    cbn -[in_bounds _read_u8 byte_at];
    repeat match goal with
    | |- context [_read_u8 data ?a] =>
        destruct (read_u8_cases data a) as [[-> (? & -> & ->)]|[-> ->]];
        cbn -[in_bounds _read_u8 byte_at]
    end;
    try (eexists; split; reflexivity);
    repeat split; reflexivity.
Qed.
End StepFacts.

(** An entry is found by its key in the output of a successful [mapM]
    whose function stores its argument as the key. *)
Lemma mapM_find_key {B} (f : Z -> Exc B) (key : B -> Z) (l : list Z) (ys : list B) (x : Z) :
  mapM f l = inr ys ->
  (forall x' y, f x' = inr y -> key y = x') ->
  x ∈ l ->
  exists y, List.find (fun y => key y =? x) ys = Some y /\ f x = inr y.
Proof.
  rewrite mapM_inr_Forall2. intros H Hkey. induction H as [|x0 y0 l ys Hf H IH].
  - intros Hx. inversion Hx.
  - intros Hx. cbn [List.find].
    destruct (Z.eqb_spec (key y0) x) as [Heq|Hne].
    + exists y0. split; [reflexivity|].
      rewrite <- Heq, (Hkey _ _ Hf). exact Hf.
    + apply elem_of_cons in Hx as [->|Hx].
      * exfalso. apply Hne. eapply Hkey. exact Hf.
      * apply IH. exact Hx.
Qed.

(** ** The extraction loops *)

Section LoopFacts.
Variable data : list byte.
Variable base : Z.
Variables vel_off prob_off choice_off mask_off : option Z.
Variables track_stride pattern_stride tracks patterns steps : Z.
Variables track pattern : option Z.

Let step := extract_step data base vel_off prob_off choice_off mask_off
              track_stride pattern_stride.
Let one_pattern := extract_pattern data base vel_off prob_off choice_off mask_off
              track_stride pattern_stride steps.
Let one_track := extract_track data base vel_off prob_off choice_off mask_off
              track_stride pattern_stride patterns steps pattern.
Let oob := oob_read data base track_stride pattern_stride.
Let fields := configured vel_off prob_off choice_off mask_off.

Lemma extract_pattern_outcome t p :
  match one_pattern t p with
  | inl e =>
      exists c, first_some (fun s => first_some (oob t p s) fields) (Py.range steps) = Some c
                /\ raised_by c e
  | inr pe =>
      first_some (fun s => first_some (oob t p s) fields) (Py.range steps) = None /\
      pe_pattern pe = p /\
      mapM (step t p) (Py.range steps) = inr (pe_steps pe)
  end.
Proof.
  subst one_pattern. unfold extract_pattern. fold step.
  pose proof (mapM_first_some (step t p) (fun s => first_some (oob t p s) fields)
                raised_by (Py.range steps)) as H.
  destruct (mapM (step t p) (Py.range steps)) as [e|sl]; cbn.
  - apply H. intros s _.
    pose proof (extract_step_outcome data base vel_off prob_off choice_off mask_off
                  track_stride pattern_stride t p s) as Hs.
    fold step in Hs. destruct (step t p s); [exact Hs|apply Hs].
  - split; [|split; reflexivity]. apply H. intros s _.
    pose proof (extract_step_outcome data base vel_off prob_off choice_off mask_off
                  track_stride pattern_stride t p s) as Hs.
    fold step in Hs. destruct (step t p s); [exact Hs|apply Hs].
Qed.

Lemma extract_track_outcome t :
  match one_track t with
  | inl e =>
      exists c,
        first_some (fun p => first_some (fun s => first_some (oob t p s) fields)
                               (Py.range steps))
          (pattern_range patterns pattern) = Some c
        /\ raised_by c e
  | inr te =>
      first_some (fun p => first_some (fun s => first_some (oob t p s) fields)
                             (Py.range steps))
        (pattern_range patterns pattern) = None /\
      te_track te = t /\
      mapM (one_pattern t) (pattern_range patterns pattern) = inr (te_patterns te)
  end.
Proof.
  subst one_track. unfold extract_track. fold one_pattern.
  pose proof (mapM_first_some (one_pattern t)
                (fun p => first_some (fun s => first_some (oob t p s) fields)
                            (Py.range steps))
                raised_by (pattern_range patterns pattern)) as H.
  assert (Hp : forall p, p ∈ pattern_range patterns pattern ->
            match one_pattern t p with
            | inl e => exists c,
                first_some (fun s => first_some (oob t p s) fields) (Py.range steps) = Some c
                /\ raised_by c e
            | inr _ =>
                first_some (fun s => first_some (oob t p s) fields) (Py.range steps) = None
            end).
  { intros p _. pose proof (extract_pattern_outcome t p) as Hp.
    destruct (one_pattern t p); [exact Hp|apply Hp]. }
  specialize (H Hp).
  destruct (mapM (one_pattern t) (pattern_range patterns pattern)) as [e|pl]; cbn.
  - exact H.
  - split; [exact H|split; reflexivity].
Qed.

(** The outcome of the whole call: a usage error when the velocity base
    is missing; otherwise the error of the first read outside the buffer,
    if there is one, and else a result with one entry per selected
    track. *)
Lemma extract_outcome :
  match extract_drum_patterns data base vel_off prob_off choice_off mask_off
          track_stride pattern_stride tracks patterns steps track pattern with
  | inl e =>
      (vel_off = None /\ e = UsageError "Velocity offset must be provided.") \/
      (is_Some vel_off /\
       exists c, failing_read data base vel_off prob_off choice_off mask_off
                   track_stride pattern_stride tracks patterns steps track pattern = Some c
                 /\ raised_by c e)
  | inr res =>
      is_Some vel_off /\
      failing_read data base vel_off prob_off choice_off mask_off
        track_stride pattern_stride tracks patterns steps track pattern = None /\
      mapM one_track (track_range tracks track) = inr (res_tracks res)
  end.
Proof.
  unfold extract_drum_patterns, failing_read. fold one_track oob fields.
  pose proof (mapM_first_some one_track
                (fun t => first_some (fun p =>
                   first_some (fun s => first_some (oob t p s) fields) (Py.range steps))
                   (pattern_range patterns pattern))
                raised_by (track_range tracks track)) as H.
  assert (Ht : forall t, t ∈ track_range tracks track ->
            match one_track t with
            | inl e => exists c,
                first_some (fun p => first_some (fun s => first_some (oob t p s) fields)
                                       (Py.range steps))
                  (pattern_range patterns pattern) = Some c
                /\ raised_by c e
            | inr _ =>
                first_some (fun p => first_some (fun s => first_some (oob t p s) fields)
                                       (Py.range steps))
                  (pattern_range patterns pattern) = None
            end).
  { intros t _. pose proof (extract_track_outcome t) as Ht.
    destruct (one_track t); [exact Ht|apply Ht]. }
  specialize (H Ht). clear Ht.
  destruct vel_off as [vo|]; [|left; split; reflexivity].
  destruct (mapM one_track (track_range tracks track)) as [e|tl]; cbn.
  - right. split; [eexists; reflexivity|exact H].
  - split; [eexists; reflexivity|]. split; [exact H|reflexivity].
Qed.
End LoopFacts.

Section ExtractionFacts.
Variable data : list byte.
Variable base : Z.
Variables vel_off prob_off choice_off mask_off : option Z.
Variables track_stride pattern_stride tracks patterns steps : Z.
Variables track pattern : option Z.

Let step := extract_step data base vel_off prob_off choice_off mask_off
              track_stride pattern_stride.
Let one_pattern := extract_pattern data base vel_off prob_off choice_off mask_off
              track_stride pattern_stride steps.
Let one_track := extract_track data base vel_off prob_off choice_off mask_off
              track_stride pattern_stride patterns steps pattern.
Let extraction := extract_drum_patterns data base vel_off prob_off choice_off mask_off
              track_stride pattern_stride tracks patterns steps track pattern.
Let failing := failing_read data base vel_off prob_off choice_off mask_off
              track_stride pattern_stride tracks patterns steps track pattern.
Let fields := configured vel_off prob_off choice_off mask_off.
Let expect := expected data base track_stride pattern_stride.

Lemma extract_pattern_inr t p pe :
  one_pattern t p = inr pe ->
  pe_pattern pe = p /\ mapM (step t p) (Py.range steps) = inr (pe_steps pe).
Proof.
  intros H.
  pose proof (extract_pattern_outcome data base vel_off prob_off choice_off mask_off
                track_stride pattern_stride steps t p) as Ho.
  fold one_pattern in Ho. rewrite H in Ho. apply Ho.
Qed.

Lemma extract_track_inr t te :
  one_track t = inr te ->
  te_track te = t /\
  mapM (one_pattern t) (pattern_range patterns pattern) = inr (te_patterns te).
Proof.
  intros H.
  pose proof (extract_track_outcome data base vel_off prob_off choice_off mask_off
                track_stride pattern_stride patterns steps pattern t) as Ho.
  fold one_track in Ho. rewrite H in Ho. apply Ho.
Qed.

Lemma extract_inr res :
  extraction = inr res ->
  is_Some vel_off /\ failing = None /\
  mapM one_track (track_range tracks track) = inr (res_tracks res).
Proof.
  intros H.
  pose proof (extract_outcome data base vel_off prob_off choice_off mask_off
                track_stride pattern_stride tracks patterns steps track pattern) as Ho.
  fold extraction in Ho. rewrite H in Ho. exact Ho.
Qed.

(** Every selected coordinate has its step in the result, and it is the
    one the loop body produced there. *)
Lemma extract_step_at res t p s :
  extraction = inr res ->
  t ∈ track_range tracks track ->
  p ∈ pattern_range patterns pattern ->
  s ∈ Py.range steps ->
  exists sd, step_at res t p s = Some sd /\ step t p s = inr sd.
Proof.
  intros H Ht Hp Hs. apply extract_inr in H as (_ & _ & Htracks).
  destruct (mapM_find_key one_track te_track _ _ t Htracks) as (te & Hfind & Hte);
    [intros x y Hxy; apply (extract_track_inr _ _ Hxy)|exact Ht|].
  apply extract_track_inr in Hte as (_ & Hpats).
  destruct (mapM_find_key (one_pattern t) pe_pattern _ _ p Hpats) as (pe & Hfindp & Hpe);
    [intros x y Hxy; apply (extract_pattern_inr _ _ _ Hxy)|exact Hp|].
  apply extract_pattern_inr in Hpe as (_ & Hsteps).
  apply elem_of_range in Hs.
  assert (Hl : Py.range steps !! Z.to_nat s = Some s)
    by (apply lookup_range; lia).
  destruct (mapM_inr_lookup _ _ _ _ _ Hsteps Hl) as (sd & Hsd & Hstep).
  exists sd. split; [|exact Hstep].
  unfold step_at. rewrite Hfind. cbn. rewrite Hfindp. cbn.
  destruct (s <? 0) eqn:Hneg; [apply Z.ltb_lt in Hneg; lia|exact Hsd].
Qed.

(** Every step of the result was produced by the loop body at a selected
    coordinate. *)
Lemma extract_step_origin res te pe sd :
  extraction = inr res ->
  te ∈ res_tracks res -> pe ∈ te_patterns te -> sd ∈ pe_steps pe ->
  exists t p s, step t p s = inr sd.
Proof.
  intros H Hte Hpe Hsd. apply extract_inr in H as (_ & _ & Htracks).
  destruct (mapM_inr_elem _ _ _ _ Htracks Hte) as (t & _ & Ht).
  apply extract_track_inr in Ht as (_ & Hpats).
  destruct (mapM_inr_elem _ _ _ _ Hpats Hpe) as (p & _ & Hp).
  apply extract_pattern_inr in Hp as (_ & Hsteps).
  destruct (mapM_inr_elem _ _ _ _ Hsteps Hsd) as (s & _ & Hs).
  eauto.
Qed.

(** No read fails exactly when every address of every configured field
    at every selected coordinate is inside the buffer. *)
Lemma failing_read_None :
  failing = None <->
  forall t p s nf,
    t ∈ track_range tracks track ->
    p ∈ pattern_range patterns pattern ->
    s ∈ Py.range steps ->
    nf ∈ fields ->
    in_bounds data (address base nf.2 t p s track_stride pattern_stride) = true.
Proof.
  subst failing fields. unfold failing_read.
  rewrite first_some_None. split.
  - intros H t p s nf Ht Hp Hs Hnf.
    specialize (H t Ht). rewrite first_some_None in H.
    specialize (H p Hp). rewrite first_some_None in H.
    specialize (H s Hs). rewrite first_some_None in H.
    specialize (H nf Hnf). unfold oob_read in H.
    destruct (in_bounds data _); [reflexivity|discriminate].
  - intros H t Ht. apply first_some_None. intros p Hp.
    apply first_some_None. intros s Hs.
    apply first_some_None. intros nf Hnf.
    unfold oob_read. rewrite (H t p s nf Ht Hp Hs Hnf). reflexivity.
Qed.
End ExtractionFacts.

Lemma in_bounds_true (data : list byte) (a : Z) :
  in_bounds data a = true <-> 0 <= a < Py.len data.
Proof. unfold in_bounds. rewrite andb_true_iff, Z.leb_le, Z.ltb_lt. reflexivity. Qed.

Lemma in_bounds_false (data : list byte) (a : Z) :
  in_bounds data a = false <-> ~ (0 <= a < Py.len data).
Proof.
  rewrite <- in_bounds_true, not_true_iff_false. reflexivity.
Qed.

Lemma byte_at_in_bounds (data : list byte) (a : Z) :
  in_bounds data a = true ->
  exists b, data !! Z.to_nat a = Some b /\ byte_at data a = Some (Py.u8 b).
Proof.
  intros H. apply in_bounds_true in H. unfold Py.len in H. unfold byte_at.
  destruct (a <? 0) eqn:Hneg; [apply Z.ltb_lt in Hneg; lia|].
  destruct (lookup_lt_is_Some_2 data (Z.to_nat a) ltac:(lia)) as [b Hb].
  exists b. rewrite Hb. split; reflexivity.
Qed.

Lemma elem_of_configured (vel_off prob_off choice_off mask_off : option Z) (nf : string * Z) :
  nf ∈ configured vel_off prob_off choice_off mask_off <->
  (nf.1 = "velocity" /\ vel_off = Some nf.2) \/
  (nf.1 = "probability" /\ prob_off = Some nf.2) \/
  (nf.1 = "choice" /\ choice_off = Some nf.2) \/
  (nf.1 = "mask" /\ mask_off = Some nf.2).
Proof.
  destruct nf as [name fb]. unfold configured. rewrite list_elem_of_omap. cbn. split.
  - intros ([n o] & Hin & Ho). cbn in Ho.
    destruct o as [z|]; [|discriminate]. injection Ho as -> ->.
    repeat (apply elem_of_cons in Hin as [[= -> ->]|Hin]; [tauto|]).
    inversion Hin.
  - intros [[-> ->]|[[-> ->]|[[-> ->]|[-> ->]]]].
    + exists ("velocity", Some fb). split; [set_solver|reflexivity].
    + exists ("probability", Some fb). split; [set_solver|reflexivity].
    + exists ("choice", Some fb). split; [set_solver|reflexivity].
    + exists ("mask", Some fb). split; [set_solver|reflexivity].
Qed.

(** A context found by the search describes a read of the extraction whose
    address is outside the buffer. *)
Lemma failing_read_Some data base vel_off prob_off choice_off mask_off
    track_stride pattern_stride tracks patterns steps track pattern c :
  failing_read data base vel_off prob_off choice_off mask_off
    track_stride pattern_stride tracks patterns steps track pattern = Some c ->
  rc_track c ∈ track_range tracks track /\
  rc_pattern c ∈ pattern_range patterns pattern /\
  rc_step c ∈ Py.range steps /\
  rc_buffer_length c = Py.len data /\
  ~ (0 <= rc_offset c < Py.len data) /\
  exists fb, (rc_field c, fb) ∈ configured vel_off prob_off choice_off mask_off /\
             rc_offset c = address base fb (rc_track c) (rc_pattern c) (rc_step c)
                             track_stride pattern_stride.
Proof.
  unfold failing_read. intros H.
  apply first_some_Some in H as (t & Ht & H).
  apply first_some_Some in H as (p & Hp & H).
  apply first_some_Some in H as (s & Hs & H).
  apply first_some_Some in H as ([name fb] & Hnf & H).
  unfold oob_read in H. cbn in H.
  destruct (in_bounds data _) eqn:Hb; [discriminate|].
  injection H as <-. cbn.
  apply in_bounds_false in Hb. repeat split; try assumption.
  exists fb. split; [assumption|reflexivity].
Qed.

(** ** The extraction engine: the claims *)

Section ExtractionClaims.
Variable data : list byte.
Variable base : Z.
Variables vel_off prob_off choice_off mask_off : option Z.
Variables track_stride pattern_stride tracks patterns steps : Z.
Variables track pattern : option Z.

(** What a successful loop body leaves in the step, field by field. *)
Lemma extract_step_inr t p s sd :
  extract_step data base vel_off prob_off choice_off mask_off
    track_stride pattern_stride t p s = inr sd ->
  (forall nf, nf ∈ configured vel_off prob_off choice_off mask_off ->
     in_bounds data (address base nf.2 t p s track_stride pattern_stride) = true) /\
  sd !! "velocity" = match vel_off with
                     | Some _ => expected data base track_stride pattern_stride vel_off t p s
                     | None => Some 0
                     end /\
  sd !! "probability" = expected data base track_stride pattern_stride prob_off t p s /\
  sd !! "choice" = expected data base track_stride pattern_stride choice_off t p s /\
  sd !! "mask" = expected data base track_stride pattern_stride mask_off t p s.
Proof.
  intros H.
  pose proof (extract_step_outcome data base vel_off prob_off choice_off mask_off
                track_stride pattern_stride t p s) as Ho.
  rewrite H in Ho. destruct Ho as (Hnone & Hrest).
  split; [|exact Hrest].
  intros nf Hnf. rewrite first_some_None in Hnone. specialize (Hnone nf Hnf).
  unfold oob_read in Hnone.
  destruct (in_bounds data _); [reflexivity|discriminate].
Qed.
End ExtractionClaims.

(** The coordinates the loops visit, spelled out: all of [0 .. count-1]
    without a filter, the filter value alone with one. *)
Lemma elem_of_track_range (tracks : Z) (track : option Z) (t : Z) :
  t ∈ track_range tracks track <->
  match track with None => 0 <= t < tracks | Some t0 => t = t0 end.
Proof.
  unfold track_range. destruct track as [t0|].
  - apply elem_of_range2_succ.
  - apply elem_of_range.
Qed.

Lemma elem_of_pattern_range (patterns : Z) (pattern : option Z) (p : Z) :
  p ∈ pattern_range patterns pattern <->
  match pattern with None => 0 <= p < patterns | Some p0 => p = p0 end.
Proof.
  unfold pattern_range. destruct pattern as [p0|].
  - apply elem_of_range2_succ.
  - apply elem_of_range.
Qed.

Section ExtractionTheorems.
Variable data : list byte.
Variable base : Z.
Variables vel_off prob_off choice_off mask_off : option Z.
Variables track_stride pattern_stride tracks patterns steps : Z.
Variables track pattern : option Z.

Let extraction := extract_drum_patterns data base vel_off prob_off choice_off mask_off
              track_stride pattern_stride tracks patterns steps track pattern.
Let fields := configured vel_off prob_off choice_off mask_off.

(** C1 (AddressModel contract, round trip).  The selected tracks are
    [0 .. tracks-1], or the track of the filter alone; the selected
    patterns are [0 .. patterns-1], or the pattern of the filter alone; the
    steps are [0 .. steps-1].  When the velocity base is configured and,
    for every selected track [t], pattern [p] and step [s], the address
    [base + field_base + t*track_stride + p*pattern_stride + s] of every
    configured field is inside the buffer, the extraction returns a
    result, and in it the step at [(t, p, s)] holds, for each configured
    field, exactly the byte of the buffer at that address. *)
Theorem extract_reads_address_model :
  is_Some vel_off ->
  (forall t p s name fb,
     match track with None => 0 <= t < tracks | Some t0 => t = t0 end ->
     match pattern with None => 0 <= p < patterns | Some p0 => p = p0 end ->
     0 <= s < steps ->
     (name = "velocity" /\ vel_off = Some fb) \/
     (name = "probability" /\ prob_off = Some fb) \/
     (name = "choice" /\ choice_off = Some fb) \/
     (name = "mask" /\ mask_off = Some fb) ->
     0 <= base + fb + t * track_stride + p * pattern_stride + s < Py.len data) ->
  exists res,
    extraction = inr res /\
    forall t p s,
      match track with None => 0 <= t < tracks | Some t0 => t = t0 end ->
      match pattern with None => 0 <= p < patterns | Some p0 => p = p0 end ->
      0 <= s < steps ->
      exists sd,
        step_at res t p s = Some sd /\
        forall name fb,
          (name = "velocity" /\ vel_off = Some fb) \/
          (name = "probability" /\ prob_off = Some fb) \/
          (name = "choice" /\ choice_off = Some fb) \/
          (name = "mask" /\ mask_off = Some fb) ->
          exists b,
            data !! Z.to_nat (base + fb + t * track_stride + p * pattern_stride + s)
              = Some b /\
            sd !! name = Some (Py.u8 b).
Proof.
  intros Hvel Hin.
  assert (Hnone : failing_read data base vel_off prob_off choice_off mask_off
                    track_stride pattern_stride tracks patterns steps track pattern
                  = None).
  { apply failing_read_None. intros t p s [name fb] Ht Hp Hs Hnf.
    apply in_bounds_true. unfold address, _idx. cbn [snd].
    apply elem_of_track_range in Ht. apply elem_of_pattern_range in Hp.
    apply elem_of_range in Hs. apply elem_of_configured in Hnf. cbn in Hnf.
    specialize (Hin t p s name fb Ht Hp Hs Hnf). lia. }
  pose proof (extract_outcome data base vel_off prob_off choice_off mask_off
                track_stride pattern_stride tracks patterns steps track pattern) as Ho.
  fold extraction in Ho.
  destruct extraction as [e|res] eqn:Hres.
  { exfalso. destruct Ho as [[Hv _]|(_ & c & Hc & _)].
    - rewrite Hv in Hvel. destruct Hvel as [? [=]].
    - rewrite Hnone in Hc. discriminate. }
  exists res. split; [reflexivity|].
  intros t p s Ht Hp Hs.
  apply elem_of_track_range in Ht. apply elem_of_pattern_range in Hp.
  apply elem_of_range in Hs.
  destruct (extract_step_at data base vel_off prob_off choice_off mask_off
              track_stride pattern_stride tracks patterns steps track pattern
              res t p s Hres Ht Hp Hs) as (sd & Hat & Hstep).
  exists sd. split; [exact Hat|].
  apply extract_step_inr in Hstep as (Hb & Hv & Hp' & Hc & Hm).
  intros name fb Hnf.
  assert (Hcfg : (name, fb) ∈ configured vel_off prob_off choice_off mask_off)
    by (apply elem_of_configured; exact Hnf).
  specialize (Hb _ Hcfg). cbn in Hb.
  apply byte_at_in_bounds in Hb as (b & Hlook & Hbyte).
  exists b. unfold address, _idx in Hlook, Hbyte.
  split; [rewrite <- Hlook; f_equal; lia|].
  unfold expected, address, _idx in Hv, Hp', Hc, Hm.
  destruct Hnf as [[-> Hf]|[[-> Hf]|[[-> Hf]|[-> Hf]]]]; rewrite Hf in *; cbn in *;
    congruence.
Qed.

(** C2 (all or nothing).  If the address of some configured field at some
    selected track, pattern and step is outside [0, buffer_length), the
    call raises: it returns no result at all, whatever the loops had
    already read. *)
Theorem extract_all_or_nothing t p s nf :
  t ∈ track_range tracks track -> p ∈ pattern_range patterns pattern ->
  s ∈ Py.range steps -> nf ∈ fields ->
  ~ (0 <= base + nf.2 + t * track_stride + p * pattern_stride + s < Py.len data) ->
  (exists e, extraction = inl e) /\ (forall res, extraction <> inr res).
Proof.
  intros Ht Hp Hs Hnf Hout.
  destruct extraction as [e|res] eqn:Hres.
  { split; [eauto|]. intros res. discriminate. }
  exfalso. apply Hout.
  apply extract_inr in Hres as (_ & Hnone & _).
  rewrite failing_read_None in Hnone.
  specialize (Hnone t p s nf Ht Hp Hs Hnf).
  apply in_bounds_true in Hnone. unfold address, _idx in Hnone. lia.
Qed.

(** C7, as the code has it.  When the velocity base is configured and the
    extraction fails, the failure is that of the first read, in loop
    order, whose address is outside the buffer, and the error is an
    [IndexError] whose message is the fixed text followed by that address
    in upper-case hexadecimal: the offending offset is the only part of
    the context in it. *)
Theorem extract_error_names_offset e :
  is_Some vel_off ->
  extraction = inl e ->
  exists c,
    failing_read data base vel_off prob_off choice_off mask_off
      track_stride pattern_stride tracks patterns steps track pattern = Some c /\
    ~ (0 <= rc_offset c < Py.len data) /\
    e = IndexError ("read past end of buffer at 0x" +:+ Py.format_X (rc_offset c)).
Proof.
  intros Hvel Hres.
  pose proof (extract_outcome data base vel_off prob_off choice_off mask_off
                track_stride pattern_stride tracks patterns steps track pattern) as Ho.
  fold extraction in Ho. rewrite Hres in Ho.
  destruct Ho as [[Hv _]|(_ & c & Hc & He)].
  - rewrite Hv in Hvel. destruct Hvel as [? [=]].
  - exists c. split; [exact Hc|]. split; [|exact He].
    apply failing_read_Some in Hc. tauto.
Qed.

(** C8 (presence of the optional fields).  In every step of a successful
    extraction, [velocity] has a value, and each of [probability],
    [choice] and [mask] has a value exactly when its base is configured:
    a field whose base is not configured is absent from the step. *)
Theorem optional_field_present_iff_configured res te pe sd :
  extraction = inr res ->
  te ∈ res_tracks res -> pe ∈ te_patterns te -> sd ∈ pe_steps pe ->
  is_Some (sd !! "velocity") /\
  (is_Some (sd !! "probability") <-> is_Some prob_off) /\
  (is_Some (sd !! "choice") <-> is_Some choice_off) /\
  (is_Some (sd !! "mask") <-> is_Some mask_off).
Proof.
  intros Hres Hte Hpe Hsd.
  destruct (extract_step_origin data base vel_off prob_off choice_off mask_off
              track_stride pattern_stride tracks patterns steps track pattern
              res te pe sd Hres Hte Hpe Hsd) as (t & p & s & Hstep).
  apply extract_step_inr in Hstep as (Hb & Hv & Hp & Hc & Hm).
  assert (Hfield : forall name o,
            (forall fb, o = Some fb ->
               (name, fb) ∈ configured vel_off prob_off choice_off mask_off) ->
            is_Some (expected data base track_stride pattern_stride o t p s)
            <-> is_Some o).
  { intros name [fb|] Hcfg; cbn.
    - specialize (Hb _ (Hcfg fb eq_refl)). cbn in Hb.
      apply byte_at_in_bounds in Hb as (b & _ & ->). split; eauto.
    - split; intros [? [=]]. }
  rewrite Hp, Hc, Hm.
  split; [|split; [|split]].
  - rewrite Hv. destruct vel_off as [vo|] eqn:Hvo; [|eauto].
    rewrite <- Hvo. apply (Hfield "velocity"); [|rewrite Hvo; eauto].
    intros fb ->. apply elem_of_configured. cbn. rewrite Hvo. tauto.
  - apply (Hfield "probability"). intros fb ->. apply elem_of_configured. cbn. tauto.
  - apply (Hfield "choice"). intros fb ->. apply elem_of_configured. cbn. tauto.
  - apply (Hfield "mask"). intros fb ->. apply elem_of_configured. cbn. tauto.
Qed.
End ExtractionTheorems.

(** ** The address model *)

(** Two in-range positions inside one block of [stride] bytes, at the same
    distance from blocks [a] and [b], belong to the same block. *)
Lemma block_unique (stride a b u v : Z) :
  0 <= u < stride -> 0 <= v < stride ->
  a * stride + u = b * stride + v -> a = b /\ u = v.
Proof.
  intros Hu Hv H.
  assert (a = b) by nia. subst b. split; [reflexivity|lia].
Qed.

(** C3 (injectivity).  When [track_stride >= patterns*pattern_stride] and
    [pattern_stride >= steps], the address of a fixed field is an injective
    function of [(t, p, s)] over [0 <= t < tracks], [0 <= p < patterns],
    [0 <= s < steps]. *)
Theorem address_injective (base field_base track_stride pattern_stride : Z)
    (tracks patterns steps t p s t' p' s' : Z) :
  track_stride >= patterns * pattern_stride ->
  pattern_stride >= steps ->
  0 <= t < tracks -> 0 <= p < patterns -> 0 <= s < steps ->
  0 <= t' < tracks -> 0 <= p' < patterns -> 0 <= s' < steps ->
  address base field_base t p s track_stride pattern_stride =
  address base field_base t' p' s' track_stride pattern_stride ->
  t = t' /\ p = p' /\ s = s'.
Proof.
  intros Hts Hps Ht Hp Hs Ht' Hp' Hs' H. unfold address, _idx in H.
  assert (Hin : forall q r, 0 <= q < patterns -> 0 <= r < steps ->
            0 <= q * pattern_stride + r < track_stride) by (intros q r Hq Hr; nia).
  destruct (block_unique track_stride t t' (p * pattern_stride + s)
              (p' * pattern_stride + s')) as [-> Hrest];
    [apply Hin; assumption|apply Hin; assumption|lia|].
  destruct (block_unique pattern_stride p p' s s') as [-> ->]; [lia|lia|exact Hrest|].
  repeat split.
Qed.

(** ** The glyph renderer *)

Lemma level_index_range (v : Z) : 0 <= level_index v <= 3.
Proof. unfold level_index, _clamp. change (Py.len levels) with 4. lia. Qed.

Lemma level_index_mono (v1 v2 : Z) : v1 <= v2 -> level_index v1 <= level_index v2.
Proof.
  intros H. unfold level_index, _clamp. change (Py.len levels) with 4.
  assert (v1 * 4 / 128 <= v2 * 4 / 128) by (apply Z.div_le_mono; lia). lia.
Qed.

(** The place on the scale of the glyph of a velocity: silence for 0, and
    otherwise the bar that [level_index] selects. *)
Lemma glyph_rank_step_symbol (v : Z) :
  glyph_rank (_step_symbol v None) =
  Some (if v =? 0 then 0%nat else S (Z.to_nat (level_index v))).
Proof.
  unfold _step_symbol. destruct (v =? 0); [reflexivity|].
  pose proof (level_index_range v) as H.
  assert (Hc : level_index v = 0 \/ level_index v = 1 \/
               level_index v = 2 \/ level_index v = 3) by lia.
  destruct Hc as [-> | [-> | [-> | ->]]]; vm_compute; reflexivity.
Qed.

(** C9 (glyph mapping).  Over velocities 0..255 the glyph, whose bar is
    number [clamp(velocity*4/128, 0, 3)] of the four-glyph scale, does not
    go down the intensity scale when the velocity goes up; velocity 0 gives
    the silence glyph and velocity 127 the highest bar. *)
Theorem glyph_monotone (v1 v2 : Z) :
  0 <= v1 -> v1 <= v2 -> v2 <= 255 ->
  (exists r1 r2,
     glyph_rank (_step_symbol v1 None) = Some r1 /\
     glyph_rank (_step_symbol v2 None) = Some r2 /\
     (r1 <= r2)%nat) /\
  level_index v1 = _clamp (v1 * 4 / 128) 0 3 /\
  _step_symbol 0 None = "." /\
  _step_symbol 127 None = "█" /\
  last levels = Some (_step_symbol 127 None).
Proof.
  intros H0 H12 H255.
  split; [|repeat split].
  exists (if v1 =? 0 then 0%nat else S (Z.to_nat (level_index v1))),
         (if v2 =? 0 then 0%nat else S (Z.to_nat (level_index v2))).
  rewrite !glyph_rank_step_symbol. split; [reflexivity|]. split; [reflexivity|].
  pose proof (level_index_mono v1 v2 H12) as Hm.
  pose proof (level_index_range v1). pose proof (level_index_range v2).
  destruct (Z.eqb_spec v1 0), (Z.eqb_spec v2 0); lia.
Qed.

(** C10 (silence carries no digit).  A step of velocity 0 renders as the
    silence glyph alone, whatever its probability, also when the digit is
    requested. *)
Theorem silence_has_no_probability_digit (probability : option Z) (step : gmap string Z) :
  _step_symbol 0 probability = "." /\
  _render_ascii [<["velocity" := 0]> step] true = ".".
Proof.
  split; [reflexivity|].
  unfold _render_ascii. cbn [fmap list_fmap String.concat].
  rewrite lookup_insert_eq. reflexivity.
Qed.

(** ** The offset detector *)

(** The scan appends at most the first offset that passes, and nothing
    after it: the offsets behind the accepted one play no part. *)
Lemma scan_offsets_first (data : list byte) (length : Z) (offs : list Z) :
  (scan_offsets data length offs [] = [] /\
   forall off, off ∈ offs -> is_mask_candidate (Py.slice data off (off + length)) = false)
  \/
  (exists before off after,
     offs = before ++ off :: after /\
     (forall o, o ∈ before -> is_mask_candidate (Py.slice data o (o + length)) = false) /\
     is_mask_candidate (Py.slice data off (off + length)) = true /\
     scan_offsets data length offs [] = [off]).
Proof.
  induction offs as [|o offs IH]; cbn [scan_offsets].
  - left. split; [reflexivity|]. intros off H. inversion H.
  - destruct (is_mask_candidate (Py.slice data o (o + length))) eqn:Ho.
    + right. exists [], o, offs. repeat split; try assumption.
      intros o' H. inversion H.
    + destruct IH as [[Hnil Hall]|(before & off & after & -> & Hbefore & Hoff & Hscan)].
      * left. split; [exact Hnil|]. intros off Hin.
        apply elem_of_cons in Hin as [->|Hin]; auto.
      * right. exists (o :: before), off, after. repeat split; try assumption.
        intros o' Hin. apply elem_of_cons in Hin as [->|Hin]; auto.
Qed.

(** Every offset in [candidates] passed the predicate. *)
Lemma mask_candidates_accepted (data : list byte) (length : Z) (hint : option Z) (m : Z) :
  m ∈ mask_candidates data length hint ->
  is_mask_candidate (Py.slice data m (m + length)) = true.
Proof.
  unfold mask_candidates, check_hint.
  assert (Hscan : m ∈ scan_offsets data length (Py.range3 0 (Py.len data - length) 16) [] ->
                  is_mask_candidate (Py.slice data m (m + length)) = true).
  { destruct (scan_offsets_first data length (Py.range3 0 (Py.len data - length) 16))
      as [[-> _]|(? & off & ? & _ & _ & Hoff & ->)].
    - intros H. inversion H.
    - intros H. apply list_elem_of_singleton in H as ->. exact Hoff. }
  destruct hint as [h|]; [|exact Hscan].
  destruct ((h >=? 0) && (h + length <=? Py.len data)); [|exact Hscan].
  destruct (is_mask_candidate (Py.slice data h (h + length))) eqn:Hh; [|exact Hscan].
  cbn. intros H. apply list_elem_of_singleton in H as ->. exact Hh.
Qed.

Lemma segment_in_file_true (data : list byte) (length off : Z) :
  segment_in_file data length off = true <-> 0 <= off /\ off + length <= Py.len data.
Proof.
  unfold segment_in_file. rewrite negb_true_iff, orb_false_iff, Z.ltb_ge, Z.gtb_ltb, Z.ltb_ge.
  reflexivity.
Qed.

(** C4 (all or nothing).  Detection returns either the "no candidate"
    signal or a dictionary with exactly the four offsets: the accepted mask
    base [m] and the three bases at the fixed distances from it, each with
    its segment of [length] bytes inside the buffer.  When the segment of
    any one of the four is not inside the buffer, nothing is returned. *)
Theorem detect_complete_or_none (data : list byte) (tracks patterns steps : Z)
    (mask_off_hint : option Z) :
  let length := tracks * patterns * steps in
  let found := _detect_drum_offsets data tracks patterns steps mask_off_hint in
  let derived := fun m : Z =>
    [("velocity", m + (DEFAULT_VEL_OFF - DEFAULT_MASK_OFF));
     ("probability", m + (DEFAULT_PROB_OFF - DEFAULT_MASK_OFF));
     ("choice", m + (DEFAULT_CHOICE_OFF - DEFAULT_MASK_OFF));
     ("mask", m)] in
  (found = None \/
   exists m,
     head (mask_candidates data length mask_off_hint) = Some m /\
     is_mask_candidate (Py.slice data m (m + length)) = true /\
     found = Some (list_to_map (derived m)) /\
     dom (list_to_map (derived m) : gmap string Z)
       = ({["velocity"; "probability"; "choice"; "mask"]} : gset string) /\
     forall name off, (name, off) ∈ derived m ->
       0 <= off /\ off + length <= Py.len data) /\
  (forall m name off,
     head (mask_candidates data length mask_off_hint) = Some m ->
     (name, off) ∈ derived m ->
     ~ (0 <= off /\ off + length <= Py.len data) ->
     found = None).
Proof.
  intros length found derived. subst found. unfold _detect_drum_offsets. fold length.
  change (_DEFAULT_OFF_DIFFS !!! "vel") with (DEFAULT_VEL_OFF - DEFAULT_MASK_OFF).
  change (_DEFAULT_OFF_DIFFS !!! "prob") with (DEFAULT_PROB_OFF - DEFAULT_MASK_OFF).
  change (_DEFAULT_OFF_DIFFS !!! "choice") with (DEFAULT_CHOICE_OFF - DEFAULT_MASK_OFF).
  destruct (mask_candidates data length mask_off_hint) as [|m rest] eqn:Hc.
  { split; [left; reflexivity|]. intros; reflexivity. }
  cbn [forallb head]. rewrite !andb_true_r.
  destruct (segment_in_file data length (m + (DEFAULT_VEL_OFF - DEFAULT_MASK_OFF))) eqn:Hv;
  destruct (segment_in_file data length (m + (DEFAULT_PROB_OFF - DEFAULT_MASK_OFF))) eqn:Hp;
  destruct (segment_in_file data length (m + (DEFAULT_CHOICE_OFF - DEFAULT_MASK_OFF))) eqn:Hch;
  destruct (segment_in_file data length m) eqn:Hm; cbn [andb];
    try (split; [left; reflexivity|intros; reflexivity]).
  apply segment_in_file_true in Hv, Hp, Hch, Hm.
  split.
  - right. exists m. split; [reflexivity|].
    split; [apply (mask_candidates_accepted data length mask_off_hint); rewrite Hc; left|].
    split; [reflexivity|]. split; [vm_compute; reflexivity|].
    intros name off Hin. subst derived. cbn in Hin.
    repeat (apply elem_of_cons in Hin as [[= -> ->]|Hin]; [assumption|]).
    inversion Hin.
  - intros m' name off [= <-] Hin Hout. exfalso. apply Hout.
    subst derived. cbn in Hin.
    repeat (apply elem_of_cons in Hin as [[= -> ->]|Hin]; [assumption|]).
    inversion Hin.
Qed.


(** C5 at a buffer whose only candidate segment is its last [length]
    bytes: 96 bytes of value 1 followed by 16 zero bytes, with
    [length = 16].  Offset 96 is a multiple of 16 and equals
    [buffer_length - length], its segment fits and passes the predicate,
    and the hint check accepts it; the scan stops below it and reports no
    candidate. *)
Theorem scan_misses_last_offset :
  let data := repeat x01 96 ++ repeat x00 16 in
  Py.len data - 16 = 96 /\
  96 mod 16 = 0 /\
  is_mask_candidate (Py.slice data 96 (96 + 16)) = true /\
  Py.range3 0 (Py.len data - 16) 16 = [0; 16; 32; 48; 64; 80] /\
  mask_candidates data 16 None = [] /\
  _detect_drum_offsets data 1 1 16 None = None /\
  mask_candidates data 16 (Some 96) = [96] /\
  _detect_drum_offsets data 1 1 16 (Some 96) =
    Some (list_to_map [("velocity", 0); ("probability", 32); ("choice", 64); ("mask", 96)]).
Proof.
  cbv zeta. repeat (apply conj; [vm_compute; reflexivity|]). vm_compute. reflexivity.
Qed.

(** C7, as the claim states it, does not hold: two calls whose failing
    reads differ in buffer length, field, track, pattern and step raise the
    very same error, so no function recovers the context from the error. *)
Lemma error_context_not_carried : ~ exists decode, carries_context decode.
Proof.
  intros [decode H].
  pose (e := IndexError "read past end of buffer at 0x6").
  pose (cA := {| rc_offset := 6; rc_buffer_length := 0; rc_field := "velocity";
                 rc_track := 0; rc_pattern := 0; rc_step := 0 |}).
  pose (cB := {| rc_offset := 6; rc_buffer_length := 6; rc_field := "probability";
                 rc_track := 1; rc_pattern := 2; rc_step := 1 |}).
  assert (HA : decode e = cA).
  { apply (H [] 0 (Some 6) None None None 0 0 1 1 1 None None);
      vm_compute; reflexivity. }
  assert (HB : decode e = cB).
  { apply (H (repeat x00 6) 0 (Some 0) (Some 5) None None 0 0 1 1 2 (Some 1) (Some 2));
      vm_compute; reflexivity. }
  rewrite HA in HB. discriminate HB.
Qed.

(** ** The theorems at concrete inputs *)

Lemma extract_reads_address_model_witness :
  exists res,
    extract_drum_patterns [x01; x02; x03; x04; x05; x06; x07; x08]
      0 (Some 0) (Some 4) None None 2 1 2 2 1 None None = inr res /\
    forall t p s,
      0 <= t < 2 -> 0 <= p < 2 -> 0 <= s < 1 ->
      exists sd,
        step_at res t p s = Some sd /\
        forall name fb,
          (name = "velocity" /\ Some 0 = Some fb) \/
          (name = "probability" /\ Some 4 = Some fb) \/
          (name = "choice" /\ @None Z = Some fb) \/
          (name = "mask" /\ @None Z = Some fb) ->
          exists b,
            [x01; x02; x03; x04; x05; x06; x07; x08]
              !! Z.to_nat (0 + fb + t * 2 + p * 1 + s) = Some b /\
            sd !! name = Some (Py.u8 b).
Proof.
  apply (extract_reads_address_model [x01; x02; x03; x04; x05; x06; x07; x08]
           0 (Some 0) (Some 4) None None 2 1 2 2 1 None None).
  - exists 0. reflexivity.
  - intros t p s name fb Ht Hp Hs Hnf.
    change (Py.len [x01; x02; x03; x04; x05; x06; x07; x08]) with 8.
    destruct Hnf as [[_ [= <-]]|[[_ [= <-]]|[[_ [=]]|[_ [=]]]]]; lia.
Defined.

Lemma extract_all_or_nothing_witness :
  (exists e, extract_drum_patterns [x01; x02; x03; x04; x05; x06; x07; x08]
               0 (Some 0) (Some 5) None None 2 1 2 2 1 None None = inl e) /\
  (forall res, extract_drum_patterns [x01; x02; x03; x04; x05; x06; x07; x08]
                 0 (Some 0) (Some 5) None None 2 1 2 2 1 None None <> inr res).
Proof.
  apply (extract_all_or_nothing [x01; x02; x03; x04; x05; x06; x07; x08]
           0 (Some 0) (Some 5) None None 2 1 2 2 1 None None
           1 1 0 ("probability", 5)).
  - apply elem_of_range. lia.
  - apply elem_of_range. lia.
  - apply elem_of_range. lia.
  - apply elem_of_configured. cbn. tauto.
  - change (Py.len [x01; x02; x03; x04; x05; x06; x07; x08]) with 8. cbn. lia.
Defined.

Lemma extract_error_names_offset_witness :
  exists c,
    failing_read [x01; x02; x03; x04; x05; x06; x07; x08]
      0 (Some 0) (Some 5) None None 2 1 2 2 1 None None = Some c /\
    ~ (0 <= rc_offset c < Py.len [x01; x02; x03; x04; x05; x06; x07; x08]) /\
    IndexError "read past end of buffer at 0x8" =
    IndexError ("read past end of buffer at 0x" +:+ Py.format_X (rc_offset c)).
Proof.
  apply (extract_error_names_offset [x01; x02; x03; x04; x05; x06; x07; x08]
           0 (Some 0) (Some 5) None None 2 1 2 2 1 None None).
  - exists 0. reflexivity.
  - vm_compute. reflexivity.
Defined.

Lemma optional_field_present_iff_configured_witness :
  let sd : gmap string Z := <["velocity" := 5]> ∅ in
  is_Some (sd !! "velocity") /\
  (is_Some (sd !! "probability") <-> is_Some (@None Z)) /\
  (is_Some (sd !! "choice") <-> is_Some (@None Z)) /\
  (is_Some (sd !! "mask") <-> is_Some (@None Z)).
Proof.
  intros sd.
  pose (pe := {| pe_pattern := 0; pe_steps := [sd] |}).
  pose (te := {| te_track := 0; te_patterns := [pe] |}).
  pose (res := {| res_meta := extract_meta 0 (Some 0) None None None 0 0 1 1 1;
                  res_tracks := [te] |}).
  apply (optional_field_present_iff_configured [x05]
           0 (Some 0) None None None 0 0 1 1 1 None None res te pe sd).
  - vm_compute. reflexivity.
  - apply list_elem_of_here.
  - apply list_elem_of_here.
  - apply list_elem_of_here.
Defined.

Lemma address_injective_witness :
  1 = 1 /\ 2 = 2 /\ 3 = 3.
Proof.
  apply (address_injective 0 DEFAULT_VEL_OFF DEFAULT_TRACK_STRIDE DEFAULT_PATTERN_STRIDE
           DEFAULT_TRACKS DEFAULT_PATTERNS DEFAULT_STEPS 1 2 3 1 2 3);
    unfold DEFAULT_TRACK_STRIDE, DEFAULT_PATTERN_STRIDE, DEFAULT_TRACKS,
      DEFAULT_PATTERNS, DEFAULT_STEPS; try lia; reflexivity.
Defined.

Lemma glyph_monotone_witness :
  (exists r1 r2,
     glyph_rank (_step_symbol 31 None) = Some r1 /\
     glyph_rank (_step_symbol 32 None) = Some r2 /\
     (r1 <= r2)%nat) /\
  level_index 31 = _clamp (31 * 4 / 128) 0 3 /\
  _step_symbol 0 None = "." /\
  _step_symbol 127 None = "█" /\
  last levels = Some (_step_symbol 127 None).
Proof. apply (glyph_monotone 31 32); lia. Defined.

(** ** Binary64 division against the literal 0.6

    The kernel's specification is evaluated symbolically on normal
    mantissas: digits, alignment, rounding to nearest even, and the
    comparison with [0.6]. *)

Lemma digits2_pos_size (p : positive) : digits2_pos p = Pos.size p.
Proof. induction p; cbn; congruence. Qed.

Lemma digits2_pos_bounds (p : positive) :
  2 ^ (Zpos (digits2_pos p) - 1) <= Zpos p < 2 ^ Zpos (digits2_pos p).
Proof.
  rewrite digits2_pos_size. split.
  - pose proof (Pos.size_le p) as H.
    assert (H2 : 2 ^ Zpos (Pos.size p) <= 2 * Zpos p).
    { rewrite <- Pos2Z.inj_pow. change (2 * Zpos p) with (Zpos p~0). exact H. }
    replace (Zpos (Pos.size p)) with (Z.succ (Zpos (Pos.size p) - 1)) in H2 by lia.
    rewrite Z.pow_succ_r in H2 by lia. lia.
  - pose proof (Pos.size_gt p) as H. rewrite <- Pos2Z.inj_pow. exact H.
Qed.

Lemma Zdigits2_range (m k : Z) :
  0 < k -> 2 ^ (k - 1) <= m < 2 ^ k -> Zdigits2 m = k.
Proof.
  intros Hk [Hlo Hhi].
  assert (0 < 2 ^ (k - 1)) by (apply Z.pow_pos_nonneg; lia).
  destruct m as [|p|p]; try lia. cbn [Zdigits2].
  pose proof (digits2_pos_bounds p) as [Hl Hh].
  set (d := Zpos (digits2_pos p)) in *.
  destruct (Z.lt_trichotomy d k) as [Hlt|[Heq|Hgt]]; [|exact Heq|].
  - assert (2 ^ d <= 2 ^ (k - 1)) by (apply Z.pow_le_mono_r; lia). lia.
  - assert (2 ^ k <= 2 ^ (d - 1)) by (apply Z.pow_le_mono_r; lia). lia.
Qed.

Lemma Zdigits2_bounds (m : Z) :
  0 < m -> 0 < Zdigits2 m /\ 2 ^ (Zdigits2 m - 1) <= m < 2 ^ Zdigits2 m.
Proof.
  intros H. destruct m as [|p|p]; try lia. cbn [Zdigits2].
  split; [lia|apply digits2_pos_bounds].
Qed.

Lemma iter_xO (m k : positive) : Zpos (Pos.iter xO m k) = Zpos m * 2 ^ Zpos k.
Proof.
  revert m. induction k using Pos.peano_ind; intros m.
  - cbn. lia.
  - rewrite Pos.iter_succ. rewrite Pos2Z.inj_xO, IHk.
    rewrite Pos2Z.inj_succ, Z.pow_succ_r by lia. lia.
Qed.


Lemma round_nearest_even_cases (m : Z) (l : location) :
  round_nearest_even m l = m \/ round_nearest_even m l = m + 1.
Proof.
  destruct l as [|[]]; cbn; auto. destruct (Z.even m); auto.
Qed.

Lemma loc_of_record_of_loc (m : Z) (l : location) :
  loc_of_shr_record (shr_record_of_loc m l) = l /\
  shr_m (shr_record_of_loc m l) = m.
Proof. destruct l as [|[]]; split; reflexivity. Qed.

Lemma fexp_normal (e : Z) : -1074 <= e - 53 -> fexp 53 1024 e = e - 53.
Proof. intros H. unfold fexp, emin. lia. Qed.

(** No rounding is needed for a 53-digit mantissa that is exact. *)
Lemma finish_53 (M e : Z) :
  P52 <= M <= P53 -> -1074 <= e <= 970 ->
  (let '(mrs, e') := shr_fexp 53 1024 M e loc_Exact in
   match shr_m mrs with
   | Z0 => S754_zero false
   | Zpos m => if e' <=? 1024 - 53 then S754_finite false m e' else S754_infinity false
   | Zneg _ => S754_nan
   end) =
  if M <? P53 then S754_finite false (Z.to_pos M) e
  else S754_finite false (Z.to_pos P52) (e + 1).
Proof.
  intros HM He. unfold shr_fexp.
  destruct (Z.ltb_spec M P53) as [Hlt|Hge].
  - rewrite (Zdigits2_range M 53) by (unfold P52, P53 in *; cbn; lia).
    rewrite fexp_normal by lia.
    replace (53 + e - 53 - e) with 0 by lia. cbn [shr shr_record_of_loc shr_m].
    destruct M as [|p|p]; try (unfold P52 in *; lia).
    destruct (Z.leb_spec e (1024 - 53)); [reflexivity|lia].
  - assert (M = P53) by lia. subst M.
    change (Zdigits2 P53) with 54.
    rewrite fexp_normal by lia.
    replace (54 + e - 53 - e) with 1 by lia. cbn.
    match goal with
    | |- context [?a <=? ?b] => destruct (Z.leb_spec a b); [reflexivity|lia]
    end.
Qed.

Lemma bra_53 (m e : Z) (l : location) :
  P52 <= m < P53 -> -1074 <= e <= 960 ->
  binary_round_aux 53 1024 false m e l =
  let M := round_nearest_even m l in
  if M <? P53 then S754_finite false (Z.to_pos M) e
  else S754_finite false (Z.to_pos P52) (e + 1).
Proof.
  intros Hm He. unfold binary_round_aux.
  unfold shr_fexp at 1.
  rewrite (Zdigits2_range m 53) by (unfold P52, P53 in *; cbn; lia).
  rewrite fexp_normal by lia.
  replace (53 + e - 53 - e) with 0 by lia. cbn [shr].
  destruct (loc_of_record_of_loc m l) as [-> ->].
  cbv zeta. apply finish_53; [|lia].
  destruct (round_nearest_even_cases m l) as [-> | ->]; lia.
Qed.

Lemma bra_54 (m e : Z) (l : location) :
  P53 <= m < P54 -> -1074 <= e <= 960 ->
  binary_round_aux 53 1024 false m e l =
  let mrs := shr_1 (shr_record_of_loc m l) in
  let M := round_nearest_even (shr_m mrs) (loc_of_shr_record mrs) in
  if M <? P53 then S754_finite false (Z.to_pos M) (e + 1)
  else S754_finite false (Z.to_pos P52) (e + 2).
Proof.
  intros Hm He. unfold binary_round_aux.
  unfold shr_fexp at 1.
  rewrite (Zdigits2_range m 54) by (unfold P53, P54 in *; cbn; lia).
  rewrite fexp_normal by lia.
  replace (54 + e - 53 - e) with 1 by lia. cbn [shr iter_pos].
  cbv zeta.
  replace (e + 2) with (e + 1 + 1) by lia.
  apply finish_53; [|lia].
  assert (Hs : P52 <= shr_m (shr_1 (shr_record_of_loc m l)) < P53).
  { destruct m as [|p|p]; try (unfold P53 in *; lia).
    destruct l as [|[]]; destruct p; cbn; unfold P52, P53, P54 in *; lia. }
  destruct (round_nearest_even_cases (shr_m (shr_1 (shr_record_of_loc m l)))
              (loc_of_shr_record (shr_1 (shr_record_of_loc m l)))) as [-> | ->]; lia.
Qed.


Lemma float_of_int_pos (z : Z) :
  0 < z < P53 ->
  exists d, 0 < d <= 53 /\ P52 <= z * 2 ^ (53 - d) < P53 /\
  Py.float_of_int z = S754_finite false (Z.to_pos (z * 2 ^ (53 - d))) (d - 53).
Proof.
  intros Hz. destruct z as [|p|p]; try lia.
  pose proof (digits2_pos_bounds p) as [Hlo Hhi].
  set (d := Zpos (digits2_pos p)) in *.
  assert (Hd : 0 < d <= 53).
  { split; [lia|]. destruct (Z.le_gt_cases d 53) as [H|H]; [exact H|].
    assert (2 ^ 53 <= 2 ^ (d - 1)) by (apply Z.pow_le_mono_r; lia).
    change (2 ^ 53) with P53 in *. lia. }
  assert (Hm : P52 <= Zpos p * 2 ^ (53 - d) < P53).
  { assert (E1 : 2 ^ (d - 1) * 2 ^ (53 - d) = P52).
    { rewrite <- Z.pow_add_r by lia. replace (d - 1 + (53 - d)) with 52 by lia. reflexivity. }
    assert (E2 : 2 ^ d * 2 ^ (53 - d) = P53).
    { rewrite <- Z.pow_add_r by lia. replace (d + (53 - d)) with 53 by lia. reflexivity. }
    assert (0 < 2 ^ (53 - d)) by (apply Z.pow_pos_nonneg; lia).
    nia. }
  exists d. split; [exact Hd|]. split; [exact Hm|].
  unfold Py.float_of_int, Py.prec, Py.emax. cbn [binary_normalize]. unfold binary_round, shl_align.
  fold d. rewrite fexp_normal by lia.
  replace (d + 0 - 53 - 0) with (d - 53) by lia.
  destruct (d - 53) as [|k|k] eqn:Hk; try lia.
  - replace (53 - d) with 0 in * by lia. rewrite Z.mul_1_r in *.
    rewrite bra_53 by lia. cbn [round_nearest_even]. cbv zeta.
    destruct (Z.ltb_spec (Zpos p) P53); [f_equal; lia|lia].
  - replace (53 - d) with (Zpos k) in * by lia.
    rewrite <- iter_xO in *.
    rewrite bra_53 by lia. cbn [round_nearest_even]. cbv zeta.
    destruct (Z.ltb_spec (Zpos (Pos.iter xO p k)) P53); [|lia].
    f_equal. lia.
Qed.

Lemma SFdiv_normal (mx my : positive) (ex ey : Z) :
  P52 <= Zpos mx < P53 -> P52 <= Zpos my < P53 -> -100 <= ex - ey <= 100 ->
  SFdiv 53 1024 (S754_finite false mx ex) (S754_finite false my ey) =
  binary_round_aux 53 1024 false ((Zpos mx * P53) / Zpos my) (ex - ey - 53)
    (new_location (Zpos my) ((Zpos mx * P53) mod Zpos my)).
Proof.
  intros Hx Hy He. unfold SFdiv, SFdiv_core_binary.
  rewrite (Zdigits2_range (Zpos mx) 53) by (unfold P52, P53 in *; cbn; lia).
  rewrite (Zdigits2_range (Zpos my) 53) by (unfold P52, P53 in *; cbn; lia).
  rewrite fexp_normal by lia.
  replace (Z.min (53 + ex - (53 + ey) - 53) (ex - ey)) with (ex - ey - 53) by lia.
  replace (ex - ey - (ex - ey - 53)) with 53 by lia.
  rewrite Z.shiftl_mul_pow2 by lia. change (2 ^ 53) with P53.
  unfold Z.div, Z.modulo.
  destruct (Z.div_eucl (Zpos mx * P53) (Zpos my)) as [q r]. reflexivity.
Qed.

Lemma new_location_spec (n r : Z) :
  0 < n -> 0 <= r < n ->
  new_location n r = if r =? 0 then loc_Exact else loc_Inexact (2 * r ?= n).
Proof.
  intros Hn Hr. unfold new_location, new_location_even, new_location_odd.
  destruct (Z.even n) eqn:He; [reflexivity|].
  destruct (r =? 0); [reflexivity|]. f_equal.
  assert (Hodd : Z.odd n = true) by (rewrite <- Z.negb_even, He; reflexivity).
  apply Z.odd_spec in Hodd as [h Hh].
  destruct (Z.compare_spec (2 * r + 1) n), (Z.compare_spec (2 * r) n); try reflexivity; lia.
Qed.

Lemma ltb_0_6 (M E : Z) :
  0 < M ->
  SFltb (S754_finite false (Z.to_pos M) E) Py.float_0_6 = true <->
  E < -53 \/ (E = -53 /\ M < C06).
Proof.
  intros HM. unfold SFltb, Py.float_0_6. cbn [SFcompare].
  destruct (Z.compare_spec E (-53)) as [HE|HE|HE].
  - rewrite Pos.compare_cont_spec. cbn [Pos.switch_Eq].
    rewrite Pos2Z.inj_compare, Z2Pos.id by lia.
    fold C06.
    destruct (Z.compare_spec M C06) as [H|H|H]; split; intros H';
      try discriminate; try reflexivity.
    + destruct H' as [H'|[_ H']]; [rewrite HE in H'|rewrite H in H']; discriminate.
    + right. split; assumption.
    + destruct H' as [H'|[_ H']]; [rewrite HE in H'; discriminate|].
      exfalso. apply (Z.lt_irrefl M). eapply Z.lt_trans; eassumption.
  - split; [intros _; left; exact HE | reflexivity].
  - split; [discriminate|].
    intros [H'|[H' _]]; exfalso.
    + apply (Z.lt_irrefl E). eapply Z.lt_trans; eassumption.
    + rewrite H' in HE. discriminate.
Qed.

Lemma shr_1_round (q : Z) (l : location) :
  0 < q ->
  let mrs := shr_1 (shr_record_of_loc q l) in
  exists (h : Z) (b : bool),
    q = 2 * h + Z.b2z b /\
    round_nearest_even (shr_m mrs) (loc_of_shr_record mrs) =
    h + Z.b2z (b && (match l with loc_Exact => false | _ => true end || Z.odd h)).
Proof.
  intros Hq. destruct q as [|p|p]; try lia.
  destruct p as [p|p|].
  - exists (Zpos p), true. split; [cbn; lia|].
    destruct l as [|[]]; cbn [shr_record_of_loc shr_1 shr_m loc_of_shr_record orb andb
      round_nearest_even]; try (cbn; lia).
    rewrite <- Z.negb_odd. destruct (Z.odd (Zpos p)); cbn; lia.
  - exists (Zpos p), false. split; [cbn; lia|].
    destruct l as [|[]]; cbn; lia.
  - exists 0, true. split; [reflexivity|].
    destruct l as [|[]]; reflexivity.
Qed.

Lemma round_up_exact (q r my : Z) :
  0 < my -> 0 <= r < my ->
  let M := round_nearest_even q (new_location my r) in
  (M = q /\ (2 * r < my \/ (2 * r = my /\ exists h, q = 2 * h))) \/
  (M = q + 1 /\ (2 * r > my \/ (2 * r = my /\ exists h, q = 2 * h + 1))).
Proof.
  intros Hmy Hr. cbv zeta. rewrite new_location_spec by lia.
  destruct (Z.eqb_spec r 0) as [->|Hr0].
  - left. cbn. split; [reflexivity|lia].
  - destruct (Z.compare_spec (2 * r) my) as [H|H|H]; cbn [round_nearest_even].
    + destruct (Z.even q) eqn:He.
      * left. split; [reflexivity|]. right. split; [exact H|].
        apply Z.even_spec in He. destruct He as [h ->]. exists h. reflexivity.
      * right. split; [reflexivity|]. right. split; [exact H|].
        assert (Ho : Z.odd q = true) by (rewrite <- Z.negb_even, He; reflexivity).
        apply Z.odd_spec in Ho. destruct Ho as [h ->]. exists h. reflexivity.
    + left. split; [reflexivity|lia].
    + right. split; [reflexivity|lia].
Qed.

Lemma div_normal_lt (mx my ex ey k : Z) :
  P52 <= mx < P53 -> P52 <= my < P53 -> 0 <= k <= 60 -> ex - ey = - k ->
  SFltb (SFdiv 53 1024 (S754_finite false (Z.to_pos mx) ex)
                       (S754_finite false (Z.to_pos my) ey)) Py.float_0_6 = true <->
  mx * P54 <= K06 * my * 2 ^ k.
Proof.
  intros Hx Hy Hk He.
  assert (Hx0 : 0 < mx) by (unfold P52 in *; lia).
  assert (Hy0 : 0 < my) by (unfold P52 in *; lia).
  rewrite SFdiv_normal by (rewrite ?Z2Pos.id by lia; lia).
  rewrite !Z2Pos.id by lia.
  pose proof (Z.div_mod (mx * P53) my ltac:(lia)) as Hdiv.
  pose proof (Z.mod_pos_bound (mx * P53) my Hy0) as Hr.
  set (q := mx * P53 / my) in *. set (r := (mx * P53) mod my) in *.
  replace (ex - ey - 53) with (- 53 - k) by lia.
  assert (Hq : P52 <= q < P54).
  { split.
    - destruct (Z.le_gt_cases P52 q) as [Hc|Hc]; [exact Hc|exfalso].
      assert (my * q <= my * (P52 - 1)) by (apply Z.mul_le_mono_nonneg_l; lia).
      unfold P52, P53 in *. lia.
    - destruct (Z.le_gt_cases P54 q) as [Hc|Hc]; [exfalso|exact Hc].
      assert (my * P54 <= my * q) by (apply Z.mul_le_mono_nonneg_l; lia).
      unfold P52, P53, P54 in *. lia. }
  assert (HT : k = 0 /\ 2 ^ k = 1 \/ k = 1 /\ 2 ^ k = 2 \/ 2 <= k /\ 4 <= 2 ^ k).
  { destruct (Z.eq_dec k 0) as [->|]; [left; split; reflexivity|].
    destruct (Z.eq_dec k 1) as [->|]; [right; left; split; reflexivity|].
    right. right. split; [lia|].
    change 4 with (2 ^ 2). apply Z.pow_le_mono_r; lia. }
  destruct (Z.ltb_spec q P53) as [Hq53|Hq54].
  - (* the quotient has 53 digits *)
    rewrite bra_53 by lia. cbv zeta.
    destruct (round_up_exact q r my Hy0 Hr) as [[HM Hloc]|[HM Hloc]];
      rewrite HM; clear HM.
    + destruct (Z.ltb_spec q P53); [|lia].
      rewrite ltb_0_6 by (unfold P52 in *; lia).
      destruct HT as [[-> ->]|[[-> ->]|[Hk2 HT]]].
      * destruct (Z.lt_trichotomy q (C06 - 1)) as [Hc|[Hc|Hc]].
        -- assert (my * q <= my * (C06 - 2)) by (apply Z.mul_le_mono_nonneg_l; lia).
           unfold C06, K06, P52, P53, P54 in *. lia.
        -- subst q. rewrite Hc in *. unfold C06, K06, P52, P53, P54 in *. lia.
        -- assert (my * C06 <= my * q) by (apply Z.mul_le_mono_nonneg_l; lia).
           unfold C06, K06, P52, P53, P54 in *. lia.
      * assert (my * q <= my * (P53 - 1)) by (apply Z.mul_le_mono_nonneg_l; lia).
        unfold C06, K06, P52, P53, P54 in *. lia.
      * assert (K06 * my * 4 <= K06 * my * 2 ^ k)
          by (apply Z.mul_le_mono_nonneg_l; unfold K06; lia).
        unfold C06, K06, P52, P53, P54 in *. lia.
    + destruct (Z.ltb_spec (q + 1) P53) as [Hlt|Hge].
      * rewrite ltb_0_6 by (unfold P52 in *; lia).
        destruct HT as [[-> ->]|[[-> ->]|[Hk2 HT]]].
        -- destruct (Z.lt_trichotomy q (C06 - 1)) as [Hc|[Hc|Hc]].
           ++ assert (my * q <= my * (C06 - 2)) by (apply Z.mul_le_mono_nonneg_l; lia).
              unfold C06, K06, P52, P53, P54 in *. lia.
           ++ subst q. rewrite Hc in *. unfold C06, K06, P52, P53, P54 in *. lia.
           ++ assert (my * C06 <= my * q) by (apply Z.mul_le_mono_nonneg_l; lia).
              unfold C06, K06, P52, P53, P54 in *. lia.
        -- assert (my * q <= my * (P53 - 1)) by (apply Z.mul_le_mono_nonneg_l; lia).
           unfold C06, K06, P52, P53, P54 in *. lia.
        -- assert (K06 * my * 4 <= K06 * my * 2 ^ k)
             by (apply Z.mul_le_mono_nonneg_l; unfold K06; lia).
           unfold C06, K06, P52, P53, P54 in *. lia.
      * rewrite ltb_0_6 by (unfold P52; lia).
        assert (Hq1 : q = P53 - 1) by lia.
        destruct HT as [[-> ->]|[[-> ->]|[Hk2 HT]]].
        -- assert (my * C06 <= my * q) by (apply Z.mul_le_mono_nonneg_l;
             unfold C06, P53 in *; lia).
           unfold C06, K06, P52, P53, P54 in *. lia.
        -- assert (my * q <= my * (P53 - 1)) by (apply Z.mul_le_mono_nonneg_l; lia).
           unfold C06, K06, P52, P53, P54 in *. lia.
        -- assert (K06 * my * 4 <= K06 * my * 2 ^ k)
             by (apply Z.mul_le_mono_nonneg_l; unfold K06; lia).
           unfold C06, K06, P52, P53, P54 in *. lia.
  - (* the quotient has 54 digits: one more shift *)
    rewrite bra_54 by lia. cbv zeta.
    assert (Hq0 : 0 < q) by (unfold P53 in *; lia).
    destruct (shr_1_round q (new_location my r) Hq0) as (h & b & Hqh & HM).
    cbv zeta in HM. rewrite HM. clear HM.
    rewrite new_location_spec by lia.
    set (up := b && (match (if r =? 0 then loc_Exact else loc_Inexact (2 * r ?= my)) with
                     | loc_Exact => false | _ => true end || Z.odd h)).
    assert (Hup : (up = true /\ b = true /\ (r <> 0 \/ exists g, h = 2 * g + 1)) \/
                  (up = false /\ (b = false \/ (r = 0 /\ exists g, h = 2 * g)))).
    { subst up. destruct b; cbn [andb]; [|right; split; [reflexivity|left; reflexivity]].
      destruct (Z.eqb_spec r 0) as [Hr0|Hr0]; cbn [orb].
      - destruct (Z.odd h) eqn:Ho.
        + left. repeat split. right. apply Z.odd_spec in Ho. exact Ho.
        + right. split; [reflexivity|]. right. split; [exact Hr0|].
          assert (Hev : Z.even h = true) by (rewrite <- Z.negb_odd, Ho; reflexivity).
          apply Z.even_spec in Hev. exact Hev.
      - left. repeat split. left. exact Hr0. }
    clearbody up.
    assert (Hb : Z.b2z b = 0 \/ Z.b2z b = 1) by (destruct b; cbn; lia).
    assert (Hh : P52 <= h < P53) by (unfold P52, P53, P54 in *; lia).
    destruct (Z.ltb_spec (h + Z.b2z up) P53) as [Hlt|Hge].
    + rewrite ltb_0_6 by (destruct up; cbn; unfold P52 in *; lia).
      destruct HT as [[-> ->]|[[-> ->]|[Hk2 HT]]].
      * assert (my * P53 <= my * q) by (apply Z.mul_le_mono_nonneg_l; lia).
        unfold C06, K06, P52, P53, P54 in *. lia.
      * destruct (Z.lt_trichotomy q K06) as [Hc|[Hc|Hc]].
        -- assert (my * q <= my * (K06 - 1)) by (apply Z.mul_le_mono_nonneg_l; lia).
           destruct Hup as [(-> & -> & Hs)|(-> & Hs)]; cbn [Z.b2z] in *;
             unfold C06, K06, P52, P53, P54 in *; lia.
        -- assert (Hhc : h = C06 - 1 /\ b = true).
           { destruct b; cbn [Z.b2z] in *; unfold C06, K06 in *; lia. }
           destruct Hhc as [-> ->]. rewrite Hc in *.
           destruct Hup as [(-> & _ & [Hs|[g Hg]])|(-> & [Hs|[Hs [g Hg]]])];
             cbn [Z.b2z] in *; try discriminate;
             unfold C06, K06, P52, P53, P54 in *; lia.
        -- assert (my * (K06 + 1) <= my * q) by (apply Z.mul_le_mono_nonneg_l; lia).
           destruct Hup as [(-> & -> & Hs)|(-> & Hs)]; cbn [Z.b2z] in *;
             unfold C06, K06, P52, P53, P54 in *; lia.
      * assert (K06 * my * 4 <= K06 * my * 2 ^ k)
          by (apply Z.mul_le_mono_nonneg_l; unfold K06; lia).
        unfold C06, K06, P52, P53, P54 in *. lia.
    + rewrite ltb_0_6 by (unfold P52; lia).
      destruct HT as [[-> ->]|[[-> ->]|[Hk2 HT]]].
      * assert (my * P53 <= my * q) by (apply Z.mul_le_mono_nonneg_l; lia).
        unfold C06, K06, P52, P53, P54 in *. lia.
      * assert (my * (K06 + 1) <= my * q).
        { apply Z.mul_le_mono_nonneg_l; [lia|].
          destruct up; cbn [Z.b2z] in *; unfold C06, K06, P52, P53, P54 in *; lia. }
        unfold C06, K06, P52, P53, P54 in *. lia.
      * assert (K06 * my * 4 <= K06 * my * 2 ^ k)
          by (apply Z.mul_le_mono_nonneg_l; unfold K06; lia).
        unfold C06, K06, P52, P53, P54 in *. lia.
Qed.

(** The comparison [a / b < 0.6] on integers [0 <= a <= b < 2^53], as the
    floats decide it: the exact quotient is at most the midpoint between
    [0.6] and the double below it. *)
Lemma truediv_lt_0_6 (z n : Z) :
  0 <= z <= n -> 0 < n < P53 ->
  Py.float_lt (Py.truediv z n) Py.float_0_6 = true <-> z * P54 <= K06 * n.
Proof.
  intros Hz Hn. unfold Py.float_lt, Py.truediv.
  destruct (float_of_int_pos n Hn) as (dn & Hdn & Hmn & ->).
  destruct (Z.eq_dec z 0) as [->|Hz0].
  - cbn. split; [intros _; unfold K06; lia|reflexivity].
  - destruct (float_of_int_pos z ltac:(lia)) as (dz & Hdz & Hmz & ->).
    assert (Hpz : 0 < 2 ^ (53 - dz)) by (apply Z.pow_pos_nonneg; lia).
    assert (Hpn : 0 < 2 ^ (53 - dn)) by (apply Z.pow_pos_nonneg; lia).
    assert (Hle : dz <= dn).
    { destruct (Z.le_gt_cases dz dn) as [H|H]; [exact H|exfalso].
      assert (2 * 2 ^ (53 - dz) <= 2 ^ (53 - dn)).
      { rewrite <- Z.pow_succ_r by lia. apply Z.pow_le_mono_r; lia. }
      unfold P52, P53 in *. nia. }
    assert (Hsplit : 2 ^ (53 - dz) = 2 ^ (53 - dn) * 2 ^ (dn - dz)).
    { rewrite <- Z.pow_add_r by lia. f_equal. lia. }
    assert (Hpk : 0 < 2 ^ (dn - dz)) by (apply Z.pow_pos_nonneg; lia).
    rewrite (div_normal_lt _ _ (dz - 53) (dn - 53) (dn - dz)) by lia.
    rewrite Hsplit.
    set (B := 2 ^ (53 - dn)) in *. set (T := 2 ^ (dn - dz)) in *.
    replace (z * (B * T) * P54) with (z * P54 * (B * T)) by ring.
    replace (K06 * (n * B) * T) with (K06 * n * (B * T)) by ring.
    assert (0 < B * T) by (apply Z.mul_pos_pos; assumption).
    split; intros H'.
    + apply Z.mul_le_mono_pos_r in H'; assumption.
    + apply Z.mul_le_mono_pos_r; assumption.
Qed.

(** Below [2^51] elements the float comparison is the comparison of the
    exact fraction with 3/5. *)
Lemma truediv_lt_0_6_exact (z n : Z) :
  0 <= z <= n -> 0 < n < 2 ^ 51 ->
  Py.float_lt (Py.truediv z n) Py.float_0_6 = true <-> 5 * z < 3 * n.
Proof.
  intros Hz Hn. change (2 ^ 51) with 2251799813685248 in Hn.
  rewrite truediv_lt_0_6 by (try unfold P53; lia).
  unfold P54, K06. lia.
Qed.

Lemma count_bounds (seg : list byte) (x : Z) : 0 <= Py.count seg x <= Py.len seg.
Proof.
  unfold Py.len. induction seg as [|b seg IH]; cbn [Py.count length]; [lia|].
  destruct (Py.u8 b =? x); lia.
Qed.

Lemma fold_max_le (l : list Z) (a bound : Z) :
  fold_left Z.max l a <= bound <-> a <= bound /\ Forall (fun v => v <= bound) l.
Proof.
  revert a. induction l as [|v l IH]; intros a; cbn [fold_left].
  - split; [intros H; split; [exact H|constructor]|intros [H _]; exact H].
  - rewrite IH, Forall_cons, Z.max_lub_iff. tauto.
Qed.

Lemma max_from_le (b : byte) (rest : list byte) (bound : Z) :
  Py.max_from b rest <= bound <-> Forall (fun c => Py.u8 c <= bound) (b :: rest).
Proof.
  unfold Py.max_from. rewrite fold_max_le, Forall_cons, Forall_fmap. reflexivity.
Qed.

(** The candidate predicate on a non-empty segment of fewer than [2^51]
    bytes: at least 3/5 of the bytes are zero and no byte is above [0x1F]. *)
Theorem is_mask_candidate_spec (seg : list byte) :
  seg <> [] -> Py.len seg < 2 ^ 51 ->
  is_mask_candidate seg = true <->
  3 * Py.len seg <= 5 * Py.count seg 0 /\ Forall (fun b => Py.u8 b <= 0x1F) seg.
Proof.
  intros Hne Hlen. destruct seg as [|b rest]; [congruence|].
  unfold is_mask_candidate.
  pose proof (count_bounds (b :: rest) 0) as Hc.
  assert (Hpos : 0 < Py.len (b :: rest)) by (unfold Py.len; cbn [length]; lia).
  pose proof (truediv_lt_0_6_exact (Py.count (b :: rest) 0) (Py.len (b :: rest))
                Hc (conj Hpos Hlen)) as Hlt.
  destruct (Py.float_lt _ _).
  - split; [discriminate|]. intros [H _]. destruct Hlt as [Hlt _].
    specialize (Hlt eq_refl). lia.
  - assert (Hge : 3 * Py.len (b :: rest) <= 5 * Py.count (b :: rest) 0).
    { destruct (Z.le_gt_cases (3 * Py.len (b :: rest)) (5 * Py.count (b :: rest) 0))
        as [H|H]; [exact H|].
      destruct Hlt as [_ Hlt]. specialize (Hlt ltac:(lia)). discriminate. }
    rewrite <- max_from_le.
    destruct (Z.gtb_spec (Py.max_from b rest) 31) as [Hgt|Hle].
    + split; [discriminate|]. intros [_ H]. lia.
    + split; [intros _; split; [exact Hge|exact Hle]|reflexivity].
Qed.

Lemma is_mask_candidate_spec_witness :
  is_mask_candidate (repeat x00 60 ++ repeat x1f 40) = true <->
  3 * Py.len (repeat x00 60 ++ repeat x1f 40)
    <= 5 * Py.count (repeat x00 60 ++ repeat x1f 40) 0 /\
  Forall (fun b => Py.u8 b <= 0x1F) (repeat x00 60 ++ repeat x1f 40).
Proof.
  apply (is_mask_candidate_spec (repeat x00 60 ++ repeat x1f 40)).
  - discriminate.
  - vm_compute. reflexivity.
Defined.

(** ** More on the exception monad *)

Lemma mapM_inr_keys {B} (f : Z -> Exc B) (key : B -> Z) (l : list Z) (ys : list B) :
  mapM f l = inr ys ->
  (forall x y, f x = inr y -> key y = x) ->
  key <$> ys = l.
Proof.
  rewrite mapM_inr_Forall2. intros H Hkey.
  induction H as [|x y l ys Hf H IH]; [reflexivity|].
  cbn. rewrite IH. f_equal. eapply Hkey. exact Hf.
Qed.

Lemma mapM_inr_length {A B} (f : A -> Exc B) (l : list A) (ys : list B) :
  mapM f l = inr ys -> length ys = length l.
Proof.
  rewrite mapM_inr_Forall2. intros H. symmetry. eapply Forall2_length. exact H.
Qed.

(** A successful [mapM] stays what it is, up to a map over its outputs,
    under another function that agrees on the elements of the list. *)
Lemma mapM_inr_fmap {A B C} (f : A -> Exc B) (g : A -> Exc C) (h : B -> C)
    (l : list A) (ys : list B) :
  mapM f l = inr ys ->
  (forall x y, x ∈ l -> f x = inr y -> g x = inr (h y)) ->
  mapM g l = inr (h <$> ys).
Proof.
  revert ys. induction l as [|x l IH]; intros ys.
  - rewrite !mapM_nil. intros [= <-] _. reflexivity.
  - rewrite !mapM_cons.
    destruct (f x) as [e|y] eqn:Hx; [discriminate|].
    destruct (mapM f l) as [e|zs] eqn:Hl; [discriminate|].
    intros [= <-] Hfg.
    rewrite (Hfg x y ltac:(left) Hx).
    rewrite (IH zs eq_refl); [reflexivity|].
    intros x' y' Hin. apply Hfg. right. exact Hin.
Qed.

Lemma mapM_singleton {A B} (f : A -> Exc B) (x : A) :
  mapM f [x] = match f x with inl e => inl e | inr y => inr [y] end.
Proof. rewrite mapM_cons, mapM_nil. reflexivity. Qed.

Lemma range2_succ (t : Z) : Py.range2 t (t + 1) = [t].
Proof.
  unfold Py.range2. replace (t + 1 - t) with 1 by lia.
  rewrite seqZ_cons by lia. rewrite seqZ_nil by lia. reflexivity.
Qed.

Lemma u8_range (b : byte) : 0 <= Py.u8 b <= 255.
Proof.
  unfold Py.u8. pose proof (Byte.to_N_bounded b) as H. lia.
Qed.

Lemma read_u8_inr (buf : list byte) (off v : Z) :
  _read_u8 buf off = inr v ->
  0 <= off < Py.len buf /\ exists b, buf !! Z.to_nat off = Some b /\ v = Py.u8 b.
Proof.
  intros H.
  destruct (read_u8_cases buf off) as [[Hin (w & Hw & Hread)]|[_ Hread]];
    [|congruence].
  destruct (byte_at_in_bounds buf off Hin) as (b & Hb & Hbyte).
  apply in_bounds_true in Hin. split; [exact Hin|].
  exists b. split; [exact Hb|congruence].
Qed.

(** [_read_u8] returns the element at [off] exactly when [off] is an index
    of the buffer, and what it returns is a byte value; on every other
    offset, the negative ones included, it raises. *)
Theorem read_u8_spec (buf : list byte) (off : Z) :
  match _read_u8 buf off with
  | inr v =>
      0 <= off < Py.len buf /\ 0 <= v <= 255 /\
      exists b, buf !! Z.to_nat off = Some b /\ v = Py.u8 b
  | inl e =>
      ~ (0 <= off < Py.len buf) /\ e = IndexError (read_past_end off)
  end.
Proof.
  destruct (read_u8_cases buf off) as [[Hin (v & Hv & ->)]|[Hout ->]].
  - destruct (byte_at_in_bounds buf off Hin) as (b & Hb & Hbyte).
    apply in_bounds_true in Hin. split; [exact Hin|].
    assert (v = Py.u8 b) as -> by congruence.
    split; [apply u8_range|]. exists b. split; [exact Hb|reflexivity].
  - apply in_bounds_false in Hout. split; [exact Hout|reflexivity].
Qed.

(** ** The shape and the contents of a result *)

Lemma read_u8_inr_byte (data : list byte) (a v : Z) :
  _read_u8 data a = inr v -> 0 <= v <= 255.
Proof.
  intros H. apply read_u8_inr in H as (_ & b & _ & ->). apply u8_range.
Qed.

Lemma read_u8_inr_app (data more : list byte) (a v : Z) :
  _read_u8 data a = inr v -> _read_u8 (data ++ more) a = inr v.
Proof.
  intros H. apply read_u8_inr in H as (Hin & b & Hb & ->).
  assert (Hin' : in_bounds (data ++ more) a = true).
  { apply in_bounds_true. unfold Py.len in *. rewrite length_app. lia. }
  destruct (read_u8_in_bounds _ _ Hin') as (w & Hw & ->).
  destruct (byte_at_in_bounds _ _ Hin') as (b' & Hb' & Hbyte).
  rewrite lookup_app_l in Hb' by (unfold Py.len in Hin; lia). congruence.
Qed.

Section ResultFacts.
Variable data : list byte.
Variable base : Z.
Variables vel_off prob_off choice_off mask_off : option Z.
Variables track_stride pattern_stride tracks patterns steps : Z.
Variables track pattern : option Z.

Let extraction := extract_drum_patterns data base vel_off prob_off choice_off mask_off
              track_stride pattern_stride tracks patterns steps track pattern.

(** The keys of a step are field names and its values are bytes. *)
Lemma extract_step_entries t p s sd key v :
  extract_step data base vel_off prob_off choice_off mask_off
    track_stride pattern_stride t p s = inr sd ->
  sd !! key = Some v ->
  key ∈ ["velocity"; "probability"; "choice"; "mask"] /\ 0 <= v <= 255.
Proof.
  unfold extract_step, read_field, field_offset.
  set (i := _idx t p s track_stride pattern_stride).
  destruct vel_off as [vo|], prob_off as [pr|], choice_off as [ch|], mask_off as [mk|];
    cbn -[_read_u8];
    repeat match goal with
    | |- context [_read_u8 data ?a] =>
        let H := fresh "Hread" in
        destruct (_read_u8 data a) eqn:H; cbn -[_read_u8];
        [discriminate|pose proof (read_u8_inr_byte _ _ _ H)]
    end;
    intros Hsd Hk; injection Hsd as Hsd; subst sd;
    repeat (apply lookup_insert_Some in Hk as [[Hk1 Hk2]|[_ Hk]];
            [subst key v; split;
               [repeat first [apply list_elem_of_here | apply list_elem_of_further]|lia]|]);
    rewrite lookup_empty in Hk; discriminate.
Qed.

(** Appending bytes to the buffer changes no successful step. *)
Lemma extract_step_app more t p s sd :
  extract_step data base vel_off prob_off choice_off mask_off
    track_stride pattern_stride t p s = inr sd ->
  extract_step (data ++ more) base vel_off prob_off choice_off mask_off
    track_stride pattern_stride t p s = inr sd.
Proof.
  unfold extract_step, read_field, field_offset.
  set (i := _idx t p s track_stride pattern_stride).
  destruct vel_off as [vo|], prob_off as [pr|], choice_off as [ch|], mask_off as [mk|];
    cbn -[_read_u8];
    repeat match goal with
    | |- context [_read_u8 data ?a] =>
        let H := fresh "Hread" in
        destruct (_read_u8 data a) eqn:H; cbn -[_read_u8];
        [discriminate|rewrite (read_u8_inr_app data more a _ H); cbn -[_read_u8]]
    end;
    intros H; exact H.
Qed.

Let one_track := extract_track data base vel_off prob_off choice_off mask_off
              track_stride pattern_stride patterns steps pattern.
Let one_pattern := extract_pattern data base vel_off prob_off choice_off mask_off
              track_stride pattern_stride steps.

Lemma extract_inr_meta res :
  extraction = inr res ->
  res_meta res = extract_meta base vel_off prob_off choice_off mask_off
                   track_stride pattern_stride tracks patterns steps.
Proof.
  subst extraction. unfold extract_drum_patterns.
  destruct vel_off; [|discriminate].
  destruct (mapM _ _); cbn; [discriminate|]. intros [= <-]. reflexivity.
Qed.

(** The shape of a result.  [meta] holds the parameters of the call, each
    under its own name; the track entries are those of tracks
    [0, 1, ..., tracks-1] in this order, or of the filter's track alone;
    in each of them the pattern entries are those of patterns
    [0, 1, ..., patterns-1] in this order, or of the filter's pattern
    alone; and each pattern holds as many steps as [steps] says (none when
    it is not positive). *)
Theorem extract_shape res :
  extraction = inr res ->
  (meta_base (res_meta res) = base /\
   meta_track_stride (res_meta res) = track_stride /\
   meta_pattern_stride (res_meta res) = pattern_stride /\
   meta_tracks (res_meta res) = tracks /\
   meta_patterns (res_meta res) = patterns /\
   meta_steps (res_meta res) = steps /\
   meta_offsets (res_meta res) !! "velocity" = Some vel_off /\
   meta_offsets (res_meta res) !! "probability" = Some prob_off /\
   meta_offsets (res_meta res) !! "choice" = Some choice_off /\
   meta_offsets (res_meta res) !! "mask" = Some mask_off) /\
  te_track <$> res_tracks res
    = match track with None => seqZ 0 tracks | Some t => [t] end /\
  forall te, te ∈ res_tracks res ->
    pe_pattern <$> te_patterns te
      = match pattern with None => seqZ 0 patterns | Some p => [p] end /\
    forall pe, pe ∈ te_patterns te -> length (pe_steps pe) = Z.to_nat steps.
Proof.
  intros Hres. split.
  { rewrite (extract_inr_meta res Hres). cbn.
    repeat split; try reflexivity;
      rewrite ?lookup_insert_ne by discriminate; apply lookup_insert_eq. }
  apply extract_inr in Hres as (_ & _ & Htracks).
  split.
  - rewrite (mapM_inr_keys _ _ _ _ Htracks).
    + unfold track_range. destruct track; [apply range2_succ|reflexivity].
    + intros x y Hxy. apply (extract_track_inr _ _ _ _ _ _ _ _ _ _ _ _ _ Hxy).
  - intros te Hte.
    destruct (mapM_inr_elem _ _ _ _ Htracks Hte) as (t & _ & Ht).
    apply extract_track_inr in Ht as (_ & Hpats).
    split.
    + rewrite (mapM_inr_keys _ _ _ _ Hpats).
      * unfold pattern_range. destruct pattern; [apply range2_succ|reflexivity].
      * intros x y Hxy. apply (extract_pattern_inr _ _ _ _ _ _ _ _ _ _ _ _ Hxy).
    + intros pe Hpe.
      destruct (mapM_inr_elem _ _ _ _ Hpats Hpe) as (p & _ & Hp).
      apply extract_pattern_inr in Hp as (_ & Hsteps).
      apply mapM_inr_length in Hsteps. rewrite Hsteps.
      unfold Py.range. apply length_seqZ.
Qed.

(** Every entry of every step of a result is one of the four fields, with
    a byte value. *)
Theorem extract_values_are_bytes res te pe sd key v :
  extraction = inr res ->
  te ∈ res_tracks res -> pe ∈ te_patterns te -> sd ∈ pe_steps pe ->
  sd !! key = Some v ->
  key ∈ ["velocity"; "probability"; "choice"; "mask"] /\ 0 <= v <= 255.
Proof.
  intros Hres Hte Hpe Hsd Hk.
  destruct (extract_step_origin _ _ _ _ _ _ _ _ _ _ _ _ _ res te pe sd Hres Hte Hpe Hsd)
    as (t & p & s & Hstep).
  eapply extract_step_entries; eassumption.
Qed.

(** Appending bytes to the buffer does not change a successful
    extraction. *)
Theorem extract_prefix_stable more res :
  extraction = inr res ->
  extract_drum_patterns (data ++ more) base vel_off prob_off choice_off mask_off
    track_stride pattern_stride tracks patterns steps track pattern = inr res.
Proof.
  intros Hres. pose proof (extract_inr_meta res Hres) as Hmeta.
  apply extract_inr in Hres as ([vo Hvo] & _ & Htracks).
  assert (Hext : mapM (extract_track (data ++ more) base vel_off prob_off choice_off
                         mask_off track_stride pattern_stride patterns steps pattern)
                   (track_range tracks track) = inr (res_tracks res)).
  { rewrite <- (list_fmap_id (res_tracks res)).
    apply (mapM_inr_fmap _ _ id _ _ Htracks).
    intros t te _ Ht. apply extract_track_inr in Ht as (Hkey & Hpats).
    unfold extract_track.
    assert (Hp : mapM (extract_pattern (data ++ more) base vel_off prob_off choice_off
                         mask_off track_stride pattern_stride steps t)
                   (pattern_range patterns pattern) = inr (te_patterns te)).
    { rewrite <- (list_fmap_id (te_patterns te)).
      apply (mapM_inr_fmap _ _ id _ _ Hpats).
      intros p pe _ Hp. apply extract_pattern_inr in Hp as (Hpkey & Hsteps).
      unfold extract_pattern.
      assert (Hs : mapM (extract_step (data ++ more) base vel_off prob_off choice_off
                           mask_off track_stride pattern_stride t p)
                     (Py.range steps) = inr (pe_steps pe)).
      { rewrite <- (list_fmap_id (pe_steps pe)).
        apply (mapM_inr_fmap _ _ id _ _ Hsteps).
        intros s sd _ Hs. apply extract_step_app. exact Hs. }
      rewrite Hs. cbn. destruct pe; cbn in *. subst. reflexivity. }
    rewrite Hp. cbn. destruct te; cbn in *. subst. reflexivity. }
  unfold extract_drum_patterns. rewrite Hvo. rewrite <- Hvo.
  rewrite Hext. cbn. destruct res; cbn in *. subst. reflexivity.
Qed.
End ResultFacts.

(** ** Filters *)

(** Restricting the extraction to one track, when the unrestricted call
    succeeds and the track exists, succeeds too and returns the entry of
    that track, as the unrestricted call computes it, alone. *)
Theorem track_filter_selects (data : list byte) (base : Z)
    (vel_off prob_off choice_off mask_off : option Z)
    (track_stride pattern_stride tracks patterns steps : Z) (pattern : option Z)
    (res : ExtractionResult) (t : Z) :
  extract_drum_patterns data base vel_off prob_off choice_off mask_off
    track_stride pattern_stride tracks patterns steps None pattern = inr res ->
  0 <= t < tracks ->
  exists te,
    res_tracks res !! Z.to_nat t = Some te /\ te_track te = t /\
    extract_drum_patterns data base vel_off prob_off choice_off mask_off
      track_stride pattern_stride tracks patterns steps (Some t) pattern
    = inr {| res_meta := res_meta res; res_tracks := [te] |}.
Proof.
  intros Hres Ht.
  pose proof (extract_inr_meta _ _ _ _ _ _ _ _ _ _ _ _ _ _ Hres) as Hmeta.
  apply extract_inr in Hres as ([vo Hvo] & _ & Htracks).
  assert (Hl : track_range tracks None !! Z.to_nat t = Some t)
    by (apply lookup_range; lia).
  destruct (mapM_inr_lookup _ _ _ _ _ Htracks Hl) as (te & Hte & Hone).
  exists te. split; [exact Hte|].
  split; [apply (extract_track_inr _ _ _ _ _ _ _ _ _ _ _ _ _ Hone)|].
  unfold extract_drum_patterns. rewrite Hvo.
  cbn [track_range]. rewrite range2_succ, mapM_singleton.
  rewrite <- Hvo, Hone. cbn. rewrite Hmeta. reflexivity.
Qed.

(** Restricting the extraction to one pattern, when the unrestricted call
    succeeds and the pattern exists, succeeds too and keeps, in every track
    entry, the entry of that pattern alone. *)
Theorem pattern_filter_selects (data : list byte) (base : Z)
    (vel_off prob_off choice_off mask_off : option Z)
    (track_stride pattern_stride tracks patterns steps : Z) (track : option Z)
    (res : ExtractionResult) (p : Z) :
  extract_drum_patterns data base vel_off prob_off choice_off mask_off
    track_stride pattern_stride tracks patterns steps track None = inr res ->
  0 <= p < patterns ->
  extract_drum_patterns data base vel_off prob_off choice_off mask_off
    track_stride pattern_stride tracks patterns steps track (Some p)
  = inr {| res_meta := res_meta res;
           res_tracks :=
             (fun te => {| te_track := te_track te;
                           te_patterns := take 1 (drop (Z.to_nat p) (te_patterns te)) |})
             <$> res_tracks res |}.
Proof.
  intros Hres Hp.
  pose proof (extract_inr_meta _ _ _ _ _ _ _ _ _ _ _ _ _ _ Hres) as Hmeta.
  apply extract_inr in Hres as ([vo Hvo] & _ & Htracks).
  unfold extract_drum_patterns. rewrite Hvo. rewrite <- Hvo.
  erewrite (mapM_inr_fmap _ _ _ _ _ Htracks).
  - cbn. rewrite Hmeta. reflexivity.
  - intros t te _ Hone.
    apply extract_track_inr in Hone as (Hkey & Hpats).
    assert (Hl : pattern_range patterns None !! Z.to_nat p = Some p)
      by (apply lookup_range; lia).
    destruct (mapM_inr_lookup _ _ _ _ _ Hpats Hl) as (pe & Hpe & Hpone).
    unfold extract_track. cbn [pattern_range].
    rewrite range2_succ, mapM_singleton, Hpone. cbn.
    rewrite Hkey. do 2 f_equal.
    rewrite (drop_S _ _ _ Hpe). reflexivity.
Qed.

(** ** The scan and the hint *)

Lemma lookup_range3_16 (stop : Z) (i : nat) (off : Z) :
  Py.range3 0 stop 16 !! i = Some off <-> off = 16 * Z.of_nat i /\ off < stop.
Proof.
  assert (Hiff : forall k, k < (stop - 0 + 16 - 1) / 16 <-> 16 * k < stop)
    by (intros k; Z.div_mod_to_equations; lia).
  unfold Py.range3. rewrite list_lookup_fmap_Some.
  setoid_rewrite lookup_seqZ. split.
  - intros (k & -> & -> & Hlt). apply Hiff in Hlt. lia.
  - intros [-> Hlt]. exists (Z.of_nat i). split; [lia|]. split; [lia|].
    apply Hiff. exact Hlt.
Qed.

Lemma elem_of_range3_16 (stop off : Z) :
  off ∈ Py.range3 0 stop 16 <-> 0 <= off < stop /\ off mod 16 = 0.
Proof.
  rewrite list_elem_of_lookup. setoid_rewrite lookup_range3_16. split.
  - intros (i & -> & Hlt). split; [lia|].
    rewrite Z.mul_comm. apply Z.mod_mul. lia.
  - intros [[H0 Hlt] Hmod]. exists (Z.to_nat (off / 16)).
    rewrite Z2Nat.id by (apply Z.div_pos; lia).
    split; [|exact Hlt]. apply Z.div_exact in Hmod; lia.
Qed.

(** Where the scanned offsets are cut, the cut is a multiple of 16 below
    the bound, and every smaller multiple of 16 lies before the cut. *)
Lemma range3_16_split (stop : Z) (before after : list Z) (off : Z) :
  Py.range3 0 stop 16 = before ++ off :: after ->
  0 <= off < stop /\ off mod 16 = 0 /\
  forall o, 0 <= o < off -> o mod 16 = 0 -> o ∈ before.
Proof.
  intros Hsplit.
  assert (Hl : Py.range3 0 stop 16 !! List.length before = Some off).
  { rewrite Hsplit. rewrite lookup_app_r by lia.
    rewrite Nat.sub_diag. reflexivity. }
  apply lookup_range3_16 in Hl as [Hoff16 Hlt].
  split; [lia|]. split; [rewrite Hoff16, Z.mul_comm; apply Z.mod_mul; lia|].
  intros o Ho Hmod.
  assert (Hin : Py.range3 0 stop 16 !! Z.to_nat (o / 16) = Some o).
  { apply lookup_range3_16. rewrite Z2Nat.id by (apply Z.div_pos; lia).
    split; [apply Z.div_exact in Hmod; lia|lia]. }
  rewrite Hsplit in Hin. rewrite lookup_app_l in Hin.
  - apply list_elem_of_lookup. eauto.
  - apply Z.div_exact in Hmod; [|lia]. nia.
Qed.

(** With no hint, no multiple of 16 below the first candidate passes. *)
Lemma scan_head_least (data : list byte) (length m o : Z) :
  head (mask_candidates data length None) = Some m ->
  0 <= o < m -> o mod 16 = 0 ->
  is_mask_candidate (Py.slice data o (o + length)) = false.
Proof.
  unfold mask_candidates. cbn [check_hint].
  destruct (scan_offsets_first data length (Py.range3 0 (Py.len data - length) 16))
    as [[-> _]|(before & off & after & Hsplit & Hbefore & _ & ->)]; [discriminate|].
  intros [= ->] Ho Hmod. apply Hbefore.
  apply (range3_16_split _ _ _ _ Hsplit); assumption.
Qed.

(** With no hint, [candidates] holds at most one offset: the first
    multiple of 16 below [buffer_length - length] (the bound itself is
    not examined) whose segment passes the predicate. *)
Theorem scan_first_match (data : list byte) (length : Z) :
  match mask_candidates data length None with
  | [] =>
      forall o, 0 <= o < Py.len data - length -> o mod 16 = 0 ->
        is_mask_candidate (Py.slice data o (o + length)) = false
  | [m] =>
      0 <= m < Py.len data - length /\ m mod 16 = 0 /\
      is_mask_candidate (Py.slice data m (m + length)) = true /\
      forall o, 0 <= o < m -> o mod 16 = 0 ->
        is_mask_candidate (Py.slice data o (o + length)) = false
  | _ :: _ :: _ => False
  end.
Proof.
  unfold mask_candidates. cbn [check_hint].
  destruct (scan_offsets_first data length (Py.range3 0 (Py.len data - length) 16))
    as [[-> Hall]|(before & off & after & Hsplit & Hbefore & Hoff & ->)].
  - intros o Ho Hmod. apply Hall. apply elem_of_range3_16. split; assumption.
  - destruct (range3_16_split _ _ _ _ Hsplit) as (Hrange & Hmod16 & Hless).
    split; [exact Hrange|]. split; [exact Hmod16|]. split; [exact Hoff|].
    intros o Ho Hmod. apply Hbefore. apply Hless; assumption.
Qed.

(** The hint, when it is in bounds and its segment passes the predicate,
    is the mask base, whatever the scan would have found; the other three
    bases are at the fixed distances below it, and detection succeeds when
    the lowest of them is not negative. *)
Theorem detect_accepts_hint (data : list byte) (tracks patterns steps hint : Z) :
  let length := tracks * patterns * steps in
  96 <= hint -> hint + length <= Py.len data ->
  is_mask_candidate (Py.slice data hint (hint + length)) = true ->
  _detect_drum_offsets data tracks patterns steps (Some hint) =
  Some (list_to_map [("velocity", hint - 96); ("probability", hint - 64);
                     ("choice", hint - 32); ("mask", hint)]).
Proof.
  intros length H96 Hend Hpred.
  unfold _detect_drum_offsets, mask_candidates, check_hint. fold length.
  destruct (Z.geb_spec hint 0); [|lia].
  destruct (Z.leb_spec (hint + length) (Py.len data)); [|lia].
  cbn [andb]. rewrite Hpred. cbn [app].
  change (_DEFAULT_OFF_DIFFS !!! "vel") with (-96).
  change (_DEFAULT_OFF_DIFFS !!! "prob") with (-64).
  change (_DEFAULT_OFF_DIFFS !!! "choice") with (-32).
  assert (Hseg : forall off, hint - 96 <= off <= hint ->
            segment_in_file data length off = true).
  { intros off Hoff. apply segment_in_file_true. lia. }
  cbn [forallb].
  rewrite !Hseg by lia. cbn [andb].
  replace (hint + -96) with (hint - 96) by lia.
  replace (hint + -64) with (hint - 64) by lia.
  replace (hint + -32) with (hint - 32) by lia.
  reflexivity.
Qed.

(** What a successful detection returned: the dictionary built from the
    first candidate, which lies at least 96 bytes into the buffer and
    whose segment ends inside it. *)
Lemma detect_inversion (data : list byte) (tracks patterns steps : Z)
    (hint : option Z) (d : gmap string Z) :
  _detect_drum_offsets data tracks patterns steps hint = Some d ->
  exists m,
    head (mask_candidates data (tracks * patterns * steps) hint) = Some m /\
    d = list_to_map [("velocity", m - 96); ("probability", m - 64);
                     ("choice", m - 32); ("mask", m)] /\
    96 <= m /\ m + tracks * patterns * steps <= Py.len data.
Proof.
  unfold _detect_drum_offsets.
  change (_DEFAULT_OFF_DIFFS !!! "vel") with (-96).
  change (_DEFAULT_OFF_DIFFS !!! "prob") with (-64).
  change (_DEFAULT_OFF_DIFFS !!! "choice") with (-32).
  destruct (mask_candidates data (tracks * patterns * steps) hint) as [|m rest];
    [discriminate|].
  cbn [forallb head].
  destruct (segment_in_file data _ (m + -96)) eqn:Hv; [|discriminate].
  destruct (segment_in_file data _ (m + -64)); [|discriminate].
  destruct (segment_in_file data _ (m + -32)); [|discriminate].
  destruct (segment_in_file data _ m) eqn:Hm; [|discriminate].
  cbn [andb]. intros [= <-].
  apply segment_in_file_true in Hv, Hm.
  exists m. split; [reflexivity|]. split; [|lia].
  replace (m + -96) with (m - 96) by lia.
  replace (m + -64) with (m - 64) by lia.
  replace (m + -32) with (m - 32) by lia.
  reflexivity.
Qed.

(** The scan is greedy: when, with no hint, a multiple of 16 below offset
    96 passes the predicate, detection reports no candidate, whatever the
    rest of the buffer holds, because the velocity base derived from the
    first match would be negative and later offsets are never tried. *)
Theorem detect_fails_on_early_candidate (data : list byte) (tracks patterns steps o : Z) :
  let length := tracks * patterns * steps in
  0 <= o < 96 -> o mod 16 = 0 -> o < Py.len data - length ->
  is_mask_candidate (Py.slice data o (o + length)) = true ->
  _detect_drum_offsets data tracks patterns steps None = None.
Proof.
  intros length Ho Hmod Hlt Hpred.
  destruct (_detect_drum_offsets data tracks patterns steps None) as [d|] eqn:Hd;
    [exfalso|reflexivity].
  apply detect_inversion in Hd as (m & Hhead & _ & H96 & _). fold length in Hhead.
  rewrite (scan_head_least data length m o Hhead) in Hpred by lia. discriminate.
Qed.

Lemma slice_empty_range {A} (data : list A) (a : Z) : Py.slice data a (a + 0) = [].
Proof.
  unfold Py.slice. rewrite Z.add_0_r, Z.sub_diag. reflexivity.
Qed.

(** With [tracks * patterns * steps = 0] there is nothing to look for:
    detection reports no candidate for every buffer and every hint. *)
Theorem detect_zero_length (data : list byte) (tracks patterns steps : Z)
    (hint : option Z) :
  tracks * patterns * steps = 0 ->
  _detect_drum_offsets data tracks patterns steps hint = None.
Proof.
  intros Hzero. unfold _detect_drum_offsets. rewrite Hzero.
  assert (Hc : mask_candidates data 0 hint = []).
  { unfold mask_candidates, check_hint.
    assert (Hscan : scan_offsets data 0 (Py.range3 0 (Py.len data - 0) 16) [] = []).
    { destruct (scan_offsets_first data 0 (Py.range3 0 (Py.len data - 0) 16))
        as [[H _]|(? & off & ? & _ & _ & Hoff & _)]; [exact H|].
      rewrite slice_empty_range in Hoff. discriminate. }
    destruct hint as [h|]; [|exact Hscan].
    rewrite slice_empty_range. cbn [is_mask_candidate].
    destruct ((h >=? 0) && (h + 0 <=? Py.len data)); exact Hscan. }
  rewrite Hc. reflexivity.
Qed.

(** ** Detection followed by extraction *)

Lemma resolve_offsets_detected (data : list byte) (tracks patterns steps : Z)
    (vel_off prob_off choice_off mask_off : option Z) (d : gmap string Z) :
  _detect_drum_offsets data tracks patterns steps mask_off = Some d ->
  exists m,
    96 <= m /\ m + tracks * patterns * steps <= Py.len data /\
    resolve_offsets data tracks patterns steps vel_off prob_off choice_off mask_off true
    = (Some (m - 96), Some (m - 64), Some (m - 32), Some m).
Proof.
  intros Hd. unfold resolve_offsets. rewrite Hd.
  apply detect_inversion in Hd as (m & _ & -> & H96 & Hend).
  exists m. split; [exact H96|]. split; [exact Hend|].
  rewrite bool_decide_eq_false_2.
  - vm_compute. reflexivity.
  - intros Hempty.
    assert (H : (list_to_map [("velocity", m - 96); ("probability", m - 64);
                              ("choice", m - 32); ("mask", m)] : gmap string Z)
                !! "mask" = Some m) by (vm_compute; reflexivity).
    rewrite Hempty, lookup_empty in H. discriminate.
Qed.

(** In a successful extraction every configured field has a value in
    every step. *)
Lemma extract_configured_present data base vel_off prob_off choice_off mask_off
    track_stride pattern_stride tracks patterns steps track pattern
    res te pe sd name fb :
  extract_drum_patterns data base vel_off prob_off choice_off mask_off
    track_stride pattern_stride tracks patterns steps track pattern = inr res ->
  te ∈ res_tracks res -> pe ∈ te_patterns te -> sd ∈ pe_steps pe ->
  (name, fb) ∈ configured vel_off prob_off choice_off mask_off ->
  is_Some (sd !! name).
Proof.
  intros Hres Hte Hpe Hsd Hnf.
  destruct (extract_step_origin _ _ _ _ _ _ _ _ _ _ _ _ _ res te pe sd Hres Hte Hpe Hsd)
    as (t & p & s & Hstep).
  apply extract_step_inr in Hstep as (Hb & Hv & Hp & Hc & Hm).
  specialize (Hb _ Hnf). cbn in Hb.
  apply byte_at_in_bounds in Hb as (b & _ & Hbyte).
  apply elem_of_configured in Hnf. cbn in Hnf.
  unfold expected in Hv, Hp, Hc, Hm.
  destruct Hnf as [[-> Hf]|[[-> Hf]|[[-> Hf]|[-> Hf]]]]; rewrite Hf in *; cbn in *;
    eexists; etransitivity; eassumption.
Qed.

(** After a successful detection the command extracts all four fields,
    at the detected offsets, whatever offsets were given: every step of
    its result has a velocity, a probability, a choice and a mask. *)
Theorem detection_configures_all_fields (data : list byte) (base : Z)
    (vel_off prob_off choice_off mask_off : option Z)
    (ts ps tracks patterns steps : Z) (track_idx pattern_idx : option Z)
    (d : gmap string Z) (res : ExtractionResult) (te : TrackEntry)
    (pe : PatternEntry) (sd : gmap string Z) :
  _detect_drum_offsets data tracks patterns steps mask_off = Some d ->
  drums_extract_result data base vel_off prob_off choice_off mask_off
    ts ps tracks patterns steps track_idx pattern_idx true = inr res ->
  te ∈ res_tracks res -> pe ∈ te_patterns te -> sd ∈ pe_steps pe ->
  is_Some (sd !! "velocity") /\ is_Some (sd !! "probability") /\
  is_Some (sd !! "choice") /\ is_Some (sd !! "mask").
Proof.
  intros Hd Hres Hte Hpe Hsd. unfold drums_extract_result in Hres.
  destruct (resolve_offsets_detected data tracks patterns steps
              vel_off prob_off choice_off mask_off d Hd) as (m & _ & _ & Hr).
  rewrite Hr in Hres.
  repeat split.
  - eapply (extract_configured_present _ _ _ _ _ _ _ _ _ _ _ _ _ _ _ _ _ "velocity");
      try eassumption. apply elem_of_configured. cbn. left. split; reflexivity.
  - eapply (extract_configured_present _ _ _ _ _ _ _ _ _ _ _ _ _ _ _ _ _ "probability");
      try eassumption. apply elem_of_configured. cbn. right. left. split; reflexivity.
  - eapply (extract_configured_present _ _ _ _ _ _ _ _ _ _ _ _ _ _ _ _ _ "choice");
      try eassumption. apply elem_of_configured. cbn. right. right. left.
      split; reflexivity.
  - eapply (extract_configured_present _ _ _ _ _ _ _ _ _ _ _ _ _ _ _ _ _ "mask");
      try eassumption. apply elem_of_configured. cbn. right. right. right.
      split; reflexivity.
Qed.

(** Detection validates segments of [tracks * patterns * steps] bytes, so
    it guarantees the extraction for a dense layout: with base 0, a track
    stride of [patterns * steps], a pattern stride of [steps] and filters
    inside the dimensions, the command never fails after a successful
    detection. *)
Theorem detected_dense_layout_extracts (data : list byte)
    (vel_off prob_off choice_off mask_off : option Z)
    (tracks patterns steps : Z) (track_idx pattern_idx : option Z)
    (d : gmap string Z) :
  _detect_drum_offsets data tracks patterns steps mask_off = Some d ->
  (forall t, track_idx = Some t -> 0 <= t < tracks) ->
  (forall p, pattern_idx = Some p -> 0 <= p < patterns) ->
  exists res,
    drums_extract_result data 0 vel_off prob_off choice_off mask_off
      (patterns * steps) steps tracks patterns steps track_idx pattern_idx true
    = inr res.
Proof.
  intros Hd Htrack Hpattern. unfold drums_extract_result.
  destruct (resolve_offsets_detected data tracks patterns steps
              vel_off prob_off choice_off mask_off d Hd) as (m & H96 & Hend & ->).
  pose proof (extract_outcome data 0 (Some (m - 96)) (Some (m - 64)) (Some (m - 32))
                (Some m) (patterns * steps) steps tracks patterns steps
                track_idx pattern_idx) as Ho.
  destruct (extract_drum_patterns _ _ _ _ _ _ _ _ _ _ _ _ _) as [e|res]; [|eauto].
  exfalso. destruct Ho as [[[=] _]|(_ & c & Hc & _)].
  apply failing_read_Some in Hc as (Ht & Hp & Hs & _ & Hout & fb & Hfb & Hoff).
  apply Hout. rewrite Hoff. unfold address, _idx.
  assert (Ht' : 0 <= rc_track c < tracks).
  { unfold track_range in Ht. destruct track_idx as [t|].
    - apply elem_of_range2_succ in Ht. rewrite Ht. apply Htrack. reflexivity.
    - apply elem_of_range in Ht. exact Ht. }
  assert (Hp' : 0 <= rc_pattern c < patterns).
  { unfold pattern_range in Hp. destruct pattern_idx as [p|].
    - apply elem_of_range2_succ in Hp. rewrite Hp. apply Hpattern. reflexivity.
    - apply elem_of_range in Hp. exact Hp. }
  apply elem_of_range in Hs.
  assert (Hfb' : m - 96 <= fb <= m).
  { apply elem_of_configured in Hfb. cbn in Hfb.
    destruct Hfb as [[_ [= <-]]|[[_ [= <-]]|[[_ [= <-]]|[_ [= <-]]]]]; lia. }
  set (t := rc_track c) in *. set (p := rc_pattern c) in *. set (s := rc_step c) in *.
  assert (H1 : p * steps <= (patterns - 1) * steps)
    by (apply Z.mul_le_mono_nonneg_r; lia).
  assert (H2 : 0 <= p * steps) by (apply Z.mul_nonneg_nonneg; lia).
  assert (H3 : 0 <= patterns * steps) by (apply Z.mul_nonneg_nonneg; lia).
  assert (H4 : t * (patterns * steps) <= (tracks - 1) * (patterns * steps))
    by (apply Z.mul_le_mono_nonneg_r; lia).
  assert (H5 : 0 <= t * (patterns * steps)) by (apply Z.mul_nonneg_nonneg; lia).
  assert (H6 : (tracks - 1) * (patterns * steps)
               = tracks * patterns * steps - patterns * steps) by ring.
  assert (H7 : (patterns - 1) * steps = patterns * steps - steps) by ring.
  lia.
Qed.

(** ** The glyphs, by band *)

Lemma level_index_bands (v : Z) :
  level_index v = if v <? 32 then 0 else if v <? 64 then 1 else if v <? 96 then 2 else 3.
Proof.
  unfold level_index, _clamp. change (Py.len levels) with 4.
  destruct (Z.ltb_spec v 32); [|destruct (Z.ltb_spec v 64); [|destruct (Z.ltb_spec v 96)]];
    Z.div_mod_to_equations; lia.
Qed.

(** A velocity other than 0 renders as one of the four bars, chosen by
    band: below 32 (negative values included) the lowest, then 32..63,
    64..95, and from 96 on the highest; the probability, when given, is
    appended in decimal.  The index into [levels] is always valid. *)
Theorem step_symbol_bands (v : Z) (pr : Z) :
  v <> 0 ->
  _step_symbol v None = band_glyph v /\
  _step_symbol v (Some pr) = band_glyph v +:+ Py.format_d pr /\
  levels !! Z.to_nat (level_index v) = Some (band_glyph v).
Proof.
  intros Hv. unfold _step_symbol, band_glyph.
  destruct (Z.eqb_spec v 0); [contradiction|].
  rewrite level_index_bands.
  destruct (v <? 32); [repeat split|].
  destruct (v <? 64); [repeat split|].
  destruct (v <? 96); repeat split.
Qed.

Lemma step_symbol_bands_witness :
  _step_symbol 100 None = band_glyph 100 /\
  _step_symbol 100 (Some 4) = band_glyph 100 +:+ Py.format_d 4 /\
  levels !! Z.to_nat (level_index 100) = Some (band_glyph 100).
Proof. apply (step_symbol_bands 100 4). discriminate. Defined.

(** Hiding the probability is rendering the steps without their
    probabilities: the output depends on the velocities alone, and a step
    with no velocity renders as silence. *)
Theorem render_hides_probability (pattern_steps : list (gmap string Z))
    (step : gmap string Z) :
  _render_ascii pattern_steps false
  = _render_ascii (delete "probability" <$> pattern_steps) true /\
  _render_ascii pattern_steps false
  = String.concat " "
      ((fun step : gmap string Z => _step_symbol (default 0 (step !! "velocity")) None)
       <$> pattern_steps) /\
  _render_ascii [delete "velocity" step] true = ".".
Proof.
  split; [|split].
  - unfold _render_ascii. f_equal. rewrite <- list_fmap_compose.
    apply list_fmap_ext. intros i st _. cbn.
    rewrite lookup_delete_eq. rewrite lookup_delete_ne by discriminate. reflexivity.
  - reflexivity.
  - unfold _render_ascii. cbn. rewrite lookup_delete_eq. reflexivity.
Qed.

(** ** Fields do not alias *)

(** Two fields whose bases are at least [steps] apart, and fit together
    with a pattern inside [pattern_stride], never share an address: the
    parallel arrays are disjoint over the whole range of coordinates. *)
Theorem fields_do_not_alias (base fb fb' track_stride pattern_stride : Z)
    (tracks patterns steps t p s t' p' s' : Z) :
  track_stride >= patterns * pattern_stride ->
  steps <= fb' - fb ->
  (fb' - fb) + steps <= pattern_stride ->
  0 <= t < tracks -> 0 <= p < patterns -> 0 <= s < steps ->
  0 <= t' < tracks -> 0 <= p' < patterns -> 0 <= s' < steps ->
  address base fb t p s track_stride pattern_stride <>
  address base fb' t' p' s' track_stride pattern_stride.
Proof.
  intros Hts Hgap Hfit Ht Hp Hs Ht' Hp' Hs' H. unfold address, _idx in H.
  assert (Hin : forall q r, 0 <= q < patterns -> 0 <= r < pattern_stride ->
            0 <= q * pattern_stride + r < track_stride) by (intros q r Hq Hr; nia).
  destruct (block_unique track_stride t t' (p * pattern_stride + s)
              (p' * pattern_stride + (s' + (fb' - fb)))) as [-> Hrest];
    [apply Hin; lia|apply Hin; lia|lia|].
  destruct (block_unique pattern_stride p p' s (s' + (fb' - fb))) as [_ Hs2];
    [lia|lia|exact Hrest|]. lia.
Qed.

Lemma fields_do_not_alias_witness :
  address 0 DEFAULT_VEL_OFF 3 7 31 DEFAULT_TRACK_STRIDE DEFAULT_PATTERN_STRIDE <>
  address 0 DEFAULT_PROB_OFF 3 7 0 DEFAULT_TRACK_STRIDE DEFAULT_PATTERN_STRIDE.
Proof.
  apply (fields_do_not_alias 0 DEFAULT_VEL_OFF DEFAULT_PROB_OFF
           DEFAULT_TRACK_STRIDE DEFAULT_PATTERN_STRIDE
           DEFAULT_TRACKS DEFAULT_PATTERNS DEFAULT_STEPS 3 7 31 3 7 0);
    unfold DEFAULT_VEL_OFF, DEFAULT_PROB_OFF, DEFAULT_TRACK_STRIDE,
      DEFAULT_PATTERN_STRIDE, DEFAULT_TRACKS, DEFAULT_PATTERNS, DEFAULT_STEPS; lia.
Defined.

(** ** The error message names the offset *)

Lemma hex_of_uint_inj (u u' : Hexadecimal.uint) :
  Py.hex_of_uint u = Py.hex_of_uint u' -> u = u'.
Proof.
  revert u'. induction u; intros u'; destruct u'; cbn; intros H;
    try discriminate; try reflexivity;
    injection H as H; f_equal; apply IHu; exact H.
Qed.

Lemma hex_of_uint_no_sign (u : Hexadecimal.uint) (rest : string) :
  Py.hex_of_uint u <> String "-" rest.
Proof. destruct u; cbn; discriminate. Qed.

Lemma format_X_inj (n n' : Z) : Py.format_X n = Py.format_X n' -> n = n'.
Proof.
  assert (Hnonneg : forall a b : N,
            Py.hex_of_uint (N.to_hex_uint a) = Py.hex_of_uint (N.to_hex_uint b) -> a = b).
  { intros a b H. apply hex_of_uint_inj in H.
    apply HexadecimalN.Unsigned.to_uint_inj. exact H. }
  unfold Py.format_X.
  destruct n as [|p|p], n' as [|q|q]; intros H;
    try reflexivity;
    try (apply Hnonneg in H; cbn in H; congruence);
    try (exfalso; eapply hex_of_uint_no_sign; exact H);
    try (exfalso; eapply hex_of_uint_no_sign; symmetry; exact H).
  injection H as H. apply (Hnonneg (Npos p) (Npos q)) in H. congruence.
Qed.

Lemma append_inv_head (p a b : string) : p +:+ a = p +:+ b -> a = b.
Proof.
  induction p as [|c p IH]; cbn; intros H; [exact H|].
  injection H as H. apply IH. exact H.
Qed.

(** The error of a failed read names its offset and nothing else: two
    failed reads, in whatever buffers, raise the same error exactly when
    their offsets are equal. *)
Theorem read_error_identifies_offset (buf buf' : list byte) (off off' : Z) (e e' : exn) :
  _read_u8 buf off = inl e -> _read_u8 buf' off' = inl e' ->
  (e = e' <-> off = off').
Proof.
  intros H H'.
  pose proof (read_u8_cases buf off) as [[_ (v & _ & Hv)]|[_ He]]; [congruence|].
  pose proof (read_u8_cases buf' off') as [[_ (v & _ & Hv)]|[_ He']]; [congruence|].
  rewrite H in He. rewrite H' in He'. injection He as ->. injection He' as ->.
  split.
  - intros [= Hmsg]. unfold read_past_end in Hmsg.
    apply append_inv_head in Hmsg. apply format_X_inj. exact Hmsg.
  - intros ->. reflexivity.
Qed.

Lemma read_error_identifies_offset_witness :
  IndexError "read past end of buffer at 0x-1" = IndexError "read past end of buffer at 0x10"
  <-> -1 = 16.
Proof.
  apply (read_error_identifies_offset [] [x00; x01] (-1) 16); vm_compute; reflexivity.
Defined.

(** ** The further theorems at concrete inputs *)

Lemma extract_shape_witness :
  exists res,
    extract_drum_patterns [x01; x02; x03; x04] 0 (Some 0) None None None
      2 1 2 2 1 None None = inr res /\
    (meta_base (res_meta res) = 0 /\
     meta_track_stride (res_meta res) = 2 /\
     meta_pattern_stride (res_meta res) = 1 /\
     meta_tracks (res_meta res) = 2 /\
     meta_patterns (res_meta res) = 2 /\
     meta_steps (res_meta res) = 1 /\
     meta_offsets (res_meta res) !! "velocity" = Some (Some 0) /\
     meta_offsets (res_meta res) !! "probability" = Some None /\
     meta_offsets (res_meta res) !! "choice" = Some None /\
     meta_offsets (res_meta res) !! "mask" = Some None) /\
    te_track <$> res_tracks res = seqZ 0 2 /\
    forall te, te ∈ res_tracks res ->
      pe_pattern <$> te_patterns te = seqZ 0 2 /\
      forall pe, pe ∈ te_patterns te -> length (pe_steps pe) = Z.to_nat 1.
Proof.
  destruct (extract_drum_patterns [x01; x02; x03; x04] 0 (Some 0) None None None
              2 1 2 2 1 None None) as [e|res] eqn:Hres;
    [vm_compute in Hres; discriminate|].
  exists res. split; [reflexivity|].
  apply (extract_shape [x01; x02; x03; x04] 0 (Some 0) None None None
           2 1 2 2 1 None None res Hres).
Defined.

Lemma extract_values_are_bytes_witness :
  "velocity" ∈ ["velocity"; "probability"; "choice"; "mask"] /\ 0 <= 5 <= 255.
Proof.
  pose (sd := (<["velocity" := 5]> ∅ : gmap string Z)).
  pose (pe := {| pe_pattern := 0; pe_steps := [sd] |}).
  pose (te := {| te_track := 0; te_patterns := [pe] |}).
  pose (res := {| res_meta := extract_meta 0 (Some 0) None None None 0 0 1 1 1;
                  res_tracks := [te] |}).
  apply (extract_values_are_bytes [x05] 0 (Some 0) None None None 0 0 1 1 1 None None
           res te pe sd "velocity" 5).
  - vm_compute. reflexivity.
  - apply list_elem_of_here.
  - apply list_elem_of_here.
  - apply list_elem_of_here.
  - vm_compute. reflexivity.
Defined.

Lemma extract_prefix_stable_witness :
  exists res,
    extract_drum_patterns [x05] 0 (Some 0) None None None 0 0 1 1 1 None None
      = inr res /\
    extract_drum_patterns ([x05] ++ [x06; x07]) 0 (Some 0) None None None
      0 0 1 1 1 None None = inr res.
Proof.
  destruct (extract_drum_patterns [x05] 0 (Some 0) None None None 0 0 1 1 1 None None)
    as [e|res] eqn:Hres; [vm_compute in Hres; discriminate|].
  exists res. split; [reflexivity|].
  apply (extract_prefix_stable [x05] 0 (Some 0) None None None 0 0 1 1 1 None None
           [x06; x07] res Hres).
Defined.

Lemma track_filter_selects_witness :
  exists res te,
    extract_drum_patterns [x01; x02; x03; x04] 0 (Some 0) None None None
      2 1 2 2 1 None None = inr res /\
    res_tracks res !! Z.to_nat 1 = Some te /\ te_track te = 1 /\
    extract_drum_patterns [x01; x02; x03; x04] 0 (Some 0) None None None
      2 1 2 2 1 (Some 1) None
    = inr {| res_meta := res_meta res; res_tracks := [te] |}.
Proof.
  destruct (extract_drum_patterns [x01; x02; x03; x04] 0 (Some 0) None None None
              2 1 2 2 1 None None) as [e|res] eqn:Hres;
    [vm_compute in Hres; discriminate|].
  destruct (track_filter_selects [x01; x02; x03; x04] 0 (Some 0) None None None
              2 1 2 2 1 None res 1 Hres ltac:(lia)) as (te & H).
  exists res, te. split; [reflexivity|exact H].
Defined.

Lemma pattern_filter_selects_witness :
  exists res,
    extract_drum_patterns [x01; x02; x03; x04] 0 (Some 0) None None None
      2 1 2 2 1 None None = inr res /\
    extract_drum_patterns [x01; x02; x03; x04] 0 (Some 0) None None None
      2 1 2 2 1 None (Some 1)
    = inr {| res_meta := res_meta res;
             res_tracks :=
               (fun te => {| te_track := te_track te;
                             te_patterns := take 1 (drop (Z.to_nat 1) (te_patterns te)) |})
               <$> res_tracks res |}.
Proof.
  destruct (extract_drum_patterns [x01; x02; x03; x04] 0 (Some 0) None None None
              2 1 2 2 1 None None) as [e|res] eqn:Hres;
    [vm_compute in Hres; discriminate|].
  exists res. split; [reflexivity|].
  apply (pattern_filter_selects [x01; x02; x03; x04] 0 (Some 0) None None None
           2 1 2 2 1 None res 1 Hres). lia.
Defined.

Lemma detect_accepts_hint_witness :
  _detect_drum_offsets (repeat x01 96 ++ repeat x00 16) 1 1 16 (Some 96) =
  Some (list_to_map [("velocity", 96 - 96); ("probability", 96 - 64);
                     ("choice", 96 - 32); ("mask", 96)]).
Proof.
  apply (detect_accepts_hint (repeat x01 96 ++ repeat x00 16) 1 1 16 96).
  - lia.
  - vm_compute. discriminate.
  - vm_compute. reflexivity.
Defined.

Lemma detect_fails_on_early_candidate_witness :
  _detect_drum_offsets (repeat x00 200) 1 1 16 None = None.
Proof.
  apply (detect_fails_on_early_candidate (repeat x00 200) 1 1 16 0).
  - lia.
  - reflexivity.
  - vm_compute. reflexivity.
  - vm_compute. reflexivity.
Defined.

Lemma detect_zero_length_witness :
  _detect_drum_offsets (repeat x00 200) 4 8 0 (Some 96) = None.
Proof. apply (detect_zero_length (repeat x00 200) 4 8 0 (Some 96)). reflexivity. Defined.

Lemma detection_configures_all_fields_witness :
  let sd : gmap string Z :=
    <["mask" := 0]> (<["choice" := 1]> (<["probability" := 1]> (<["velocity" := 1]> ∅))) in
  is_Some (sd !! "velocity") /\ is_Some (sd !! "probability") /\
  is_Some (sd !! "choice") /\ is_Some (sd !! "mask").
Proof.
  intros sd.
  pose (pe := {| pe_pattern := 0; pe_steps := [sd] |}).
  pose (te := {| te_track := 0; te_patterns := [pe] |}).
  pose (res := {| res_meta := extract_meta 0 (Some 0) (Some 32) (Some 64) (Some 96)
                                1 1 1 1 1;
                  res_tracks := [te] |}).
  apply (detection_configures_all_fields (repeat x01 96 ++ [x00]) 0
           (Some 5) None None (Some 96) 1 1 1 1 1 None None
           (list_to_map [("velocity", 0); ("probability", 32); ("choice", 64); ("mask", 96)])
           res te pe sd).
  - vm_compute. reflexivity.
  - vm_compute. reflexivity.
  - apply list_elem_of_here.
  - apply list_elem_of_here.
  - apply list_elem_of_here.
Defined.

Lemma detected_dense_layout_extracts_witness :
  exists res,
    drums_extract_result (repeat x01 96 ++ repeat x00 8) 0 (Some 5) None None (Some 96)
      (2 * 2) 2 2 2 2 None (Some 1) true = inr res.
Proof.
  apply (detected_dense_layout_extracts (repeat x01 96 ++ repeat x00 8)
           (Some 5) None None (Some 96) 2 2 2 None (Some 1)
           (list_to_map [("velocity", 0); ("probability", 32); ("choice", 64); ("mask", 96)])).
  - vm_compute. reflexivity.
  - intros t [=].
  - intros p [= <-]. lia.
Defined.

(** ** The candidate predicate at its threshold *)







